(** * Stockfish Analyzer: a model of [StockfishGUI.py] and its properties

    The program is a Tk front end for a UCI chess engine driven through
    the python-chess library.  This development embeds the parts of
    [StockfishGUI.py] that carry behaviour: locating and starting the
    engine ([find_stockfish], [start_engine]), the background analysis
    loop ([analyze]), the click handler ([square_to_uci],
    [square_clicked]) and the three buttons ([play_move], [undo_move],
    [quit_game]).

    Conventions of the embedding.
    - A Python [str] is the list of its Unicode code points.
    - A Python call that can raise returns a [result]: [Ok v] or
      [Raise e].
    - The object [self] is the record [GUI]; a method is a function
      from [GUI] to [GUI] (paired with a [result] when it can raise).
    - Everything outside the program (the file system, the engine
      process, the chess rules of python-chess) is a parameter:
      the record [World] and the class [ChessLib]. *)

From Stdlib Require Import ZArith List Bool Lia String Ascii DecimalString.
From Stdlib Require DecimalPos DecimalZ.
Import ListNotations.
Local Open Scope Z_scope.

(** ** Python values *)

Module Py.

(** A [str]: the code points of its characters. *)
Definition str := list Z.

(** The literal with the given (ASCII) text. *)
Fixpoint lit (s : string) : str :=
  match s with
  | EmptyString => []
  | String a s' => Z.of_N (N_of_ascii a) :: lit s'
  end.

Definition str_eqb (a b : str) : bool :=
  if list_eq_dec Z.eq_dec a b then true else false.

(** The classes of the exceptions the program meets. *)
Inductive exn_class :=
| ValueError | KeyError | AttributeError | IndexError | TypeError
| InvalidMoveError | TclError | EngineTerminatedError | OtherError.

(** An exception: [sys.exit(code)] or an [Exception] with its text.
    The text is kept where the program reads it ([str(e)] in
    [start_engine] and [play_move]); an exception a library call raises
    inside the model is built by [raise_] with the text left empty. *)
Inductive exn :=
| SystemExit (code : Z)
| Error (cls : exn_class) (msg : str).

(** [isinstance(e, Exception)]: what [except Exception] catches.
    [SystemExit] derives from [BaseException] only. *)
Definition is_Exception (e : exn) : bool :=
  match e with SystemExit _ => false | Error _ _ => true end.

Inductive result (A : Type) :=
| Ok (a : A)
| Raise (e : exn).
Arguments Ok {A} a.
Arguments Raise {A} e.

Definition bind {A B} (x : result A) (f : A -> result B) : result B :=
  match x with Ok a => f a | Raise e => Raise e end.

Definition raise_ {A} (cls : exn_class) : result A := Raise (Error cls []).

(** [ord("a")] *)
Definition ord_a : Z := 97.

(** [chr(n)]: defined on the code points, [ValueError] elsewhere. *)
Definition chr (n : Z) : result str :=
  if (0 <=? n) && (n <? 1114112) then Ok [n] else raise_ ValueError.

(** [str(n)] for an [int]: its decimal digits, with a sign when negative. *)
Definition str_int (n : Z) : str :=
  lit (NilZero.string_of_int (Z.to_int n)).

(** [sep.join(parts)] *)
Fixpoint join (sep : str) (parts : list str) : str :=
  match parts with
  | [] => []
  | [p] => p
  | p :: rest => p ++ sep ++ join sep rest
  end.

(** [f"{n / 100:.2f}"] for an [int] [n].  The quotient is a float in
    Python; for the magnitudes an engine reports (far below 10^13
    centipawns) the two-decimal rendering of that float is the exact
    decimal expansion of n/100, which is what is computed here. *)
Definition format_hundredths (n : Z) : str :=
  let a := Z.abs n in
  let frac := a mod 100 in
  (if n <? 0 then lit "-" else [])
    ++ str_int (a / 100) ++ lit "."
    ++ str_int (frac / 10) ++ str_int (frac mod 10).

End Py.
Import Py.

Notation "x <- e ;; k" := (bind e (fun x => k))
  (at level 61, e at next level, right associativity).

(** ** The python-chess library

    What the program uses of [chess] and [chess.engine].  Square names
    and scores are small and fixed, and are written out; moves and the
    rules of chess are an interface. *)

Module Chess.

(** [chess.FILE_NAMES], [chess.RANK_NAMES] *)
Definition FILE_NAMES : list str :=
  map lit ["a"; "b"; "c"; "d"; "e"; "f"; "g"; "h"]%string.
Definition RANK_NAMES : list str :=
  map lit ["1"; "2"; "3"; "4"; "5"; "6"; "7"; "8"]%string.

(** [SQUARE_NAMES = [f + r for r in RANK_NAMES for f in FILE_NAMES]] *)
Definition SQUARE_NAMES : list str :=
  flat_map (fun r => map (fun f => f ++ r) FILE_NAMES) RANK_NAMES.

(** [list.index]: the first position of [x], [ValueError] if absent. *)
Fixpoint index (x : str) (l : list str) : result Z :=
  match l with
  | [] => raise_ ValueError
  | y :: l' => if str_eqb x y then Ok 0 else i <- index x l' ;; Ok (i + 1)
  end.

(** [chess.parse_square(name)]: [SQUARE_NAMES.index(name)] *)
Definition parse_square (name : str) : result Z := index name SQUARE_NAMES.

(** [chess.engine.Score]: [Cp(n)], [Mate(n)] or [MateGiven]. *)
Inductive Score :=
| Cp (cp : Z)
| Mate (moves : Z)
| MateGiven.

(** [Score.__neg__] *)
Definition neg (s : Score) : Score :=
  match s with
  | Cp cp => Cp (- cp)
  | Mate moves => if moves =? 0 then MateGiven else Mate (- moves)
  | MateGiven => Mate 0
  end.

Definition is_mate (s : Score) : bool :=
  match s with Cp _ => false | _ => true end.

(** [Score.mate()]: [None] for a centipawn score. *)
Definition mate (s : Score) : option Z :=
  match s with Cp _ => None | Mate moves => Some moves | MateGiven => Some 0 end.

(** [Score.score()] without [mate_score]: [None] for a mate score. *)
Definition score (s : Score) : option Z :=
  match s with Cp cp => Some cp | _ => None end.

Inductive Color := WHITE | BLACK.

Definition Color_eqb (a b : Color) : bool :=
  match a, b with WHITE, WHITE | BLACK, BLACK => true | _, _ => false end.

(** [chess.engine.PovScore]: a score [relative] to the side [turn],
    which for an analysis is the side to move in the analysed
    position. *)
Record PovScore := { relative : Score; turn : Color }.

(** [PovScore.pov(color)] and [PovScore.white()] *)
Definition pov (p : PovScore) (color : Color) : Score :=
  if Color_eqb (turn p) color then relative p else neg (relative p).
Definition white (p : PovScore) : Score := pov p WHITE.

End Chess.
Import Chess.

(** Moves and rules.  A [chess.Board()] starts from the standard
    position and is changed only by [push] and [pop], so it is
    represented by its [move_stack]; what the rules say about it
    (which moves are legal, which squares are occupied) is read off
    the stack by the library. *)
Class ChessLib := {
  Move : Type;
  (** [move.uci()] *)
  uci : Move -> str;
  (** [chess.Move.from_uci(text)], which raises on a malformed text *)
  from_uci : str -> result Move;
  (** [move in board.legal_moves] *)
  is_legal : list Move -> Move -> bool;
  (** [bool(board.piece_at(square))] *)
  piece_at : list Move -> Z -> bool;
}.

Section Board.
Context `{ChessLib}.

Record Board := { move_stack : list Move }.

(** [chess.Board()] *)
Definition new_board : Board := {| move_stack := [] |}.

(** [board.push(move)]: appends; legality is not checked. *)
Definition push (b : Board) (m : Move) : Board :=
  {| move_stack := move_stack b ++ [m] |}.

(** [board.pop()]: removes the last move, [IndexError] when empty. *)
Definition pop (b : Board) : result Board :=
  match move_stack b with
  | [] => raise_ IndexError
  | _ => Ok {| move_stack := removelast (move_stack b) |}
  end.

(** The boards reachable from the start by legal moves. *)
Inductive legal_board : Board -> Prop :=
| legal_start : legal_board new_board
| legal_push b m :
    legal_board b -> is_legal (move_stack b) m = true -> legal_board (push b m).

End Board.

(** ** The engine and the world around the program *)

Section Program.
Context `{ChessLib}.

(** One entry of the list [engine.analyse(..., multipv=3)] returns:
    a dict that may lack the keys ["score"] and ["pv"]. *)
Record InfoDict := { info_score : option PovScore; info_pv : option (list Move) }.

(** The calls the program makes on its [SimpleEngine]. *)
Inductive EngineCall :=
| CallAnalyse (b : Board) (depth : Z) (multipv : Z)
| CallPlay (b : Board) (depth : Z)
| CallQuit.

(** The object [self.engine]: the command it was opened with and,
    as a record of what was asked of it, the calls made so far. *)
Record SimpleEngine := { command : str; calls : list EngineCall }.

Definition called (e : SimpleEngine) (c : EngineCall) : SimpleEngine :=
  {| command := command e; calls := calls e ++ [c] |}.

(** What the program cannot decide: the file system, and the answers
    of the engine process.  The answer to a call depends on its
    position [n] among the calls and on the board sent; any answer may
    be an exception (a dead process, a timeout).  [play] answers with
    the move of the [PlayResult]; a result without a move makes
    [board.push] raise before it touches the board, and counts as an
    exceptional answer. *)
Record World := {
  frozen : bool;                       (* getattr(sys, 'frozen', False) *)
  MEIPASS : str;                       (* sys._MEIPASS *)
  here : str;                          (* os.path.dirname(os.path.abspath(sys.argv[0])) *)
  path_join : str -> str -> str;       (* os.path.join *)
  path_exists : str -> bool;           (* os.path.exists *)
  popen_uci : str -> result unit;      (* SimpleEngine.popen_uci *)
  analyse : nat -> Board -> result (list InfoDict);
  play : nat -> Board -> result Move;  (* engine.play(...).move *)
  quit : nat -> result unit;           (* engine.quit() *)
}.

(** ** The state of the program *)

(** The local state of the thread running [analyze]: at the head of
    the [while] loop, or inside [time.sleep(2)] holding the [lines] it
    has built.  [seq] and [ver] are not program variables: they record
    which engine call produced the lines ([seq], its position among the
    calls) and how many times the board had been changed when that call
    was made ([ver]). *)
Inductive Thread :=
| LoopHead
| Sleeping (lines : list str) (seq ver : nat)
| Finished.

Record GUI := {
  (* the attributes of [self] *)
  board : Board;
  engine : option SimpleEngine;
  analysis_thread : option Thread;
  running : bool;
  selected_square : option str;
  (* the module global *)
  STOCKFISH_PATH : option str;
  (* the widgets: the board the 64 labels show (their texts are a
     function of the piece placement), the contents of [eval_text],
     whether [root] has been destroyed, the error dialogs shown *)
  displayed : option Board;
  eval_text : str;
  destroyed : bool;
  dialogs : list (str * str);
  (* bookkeeping, not program variables: the commands passed to
     [popen_uci], the number of changes made to the board, and the
     [seq] and [ver] of the lines [eval_text] holds *)
  launches : list str;
  version : nat;
  eval_tag : option (nat * nat);
}.

(** A change of [self.board] in place (a [push] or a [pop]); it is
    counted in [version]. *)
Definition set_board (b : Board) (s : GUI) : GUI :=
  {| board := b; engine := engine s; analysis_thread := analysis_thread s;
     running := running s; selected_square := selected_square s;
     STOCKFISH_PATH := STOCKFISH_PATH s; displayed := displayed s;
     eval_text := eval_text s; destroyed := destroyed s; dialogs := dialogs s;
     launches := launches s; version := S (version s); eval_tag := eval_tag s |}.

Definition set_engine (e : option SimpleEngine) (s : GUI) : GUI :=
  {| board := board s; engine := e; analysis_thread := analysis_thread s;
     running := running s; selected_square := selected_square s;
     STOCKFISH_PATH := STOCKFISH_PATH s; displayed := displayed s;
     eval_text := eval_text s; destroyed := destroyed s; dialogs := dialogs s;
     launches := launches s; version := version s; eval_tag := eval_tag s |}.

Definition set_thread (t : option Thread) (s : GUI) : GUI :=
  {| board := board s; engine := engine s; analysis_thread := t;
     running := running s; selected_square := selected_square s;
     STOCKFISH_PATH := STOCKFISH_PATH s; displayed := displayed s;
     eval_text := eval_text s; destroyed := destroyed s; dialogs := dialogs s;
     launches := launches s; version := version s; eval_tag := eval_tag s |}.

Definition set_running (r : bool) (s : GUI) : GUI :=
  {| board := board s; engine := engine s; analysis_thread := analysis_thread s;
     running := r; selected_square := selected_square s;
     STOCKFISH_PATH := STOCKFISH_PATH s; displayed := displayed s;
     eval_text := eval_text s; destroyed := destroyed s; dialogs := dialogs s;
     launches := launches s; version := version s; eval_tag := eval_tag s |}.

Definition set_selected (q : option str) (s : GUI) : GUI :=
  {| board := board s; engine := engine s; analysis_thread := analysis_thread s;
     running := running s; selected_square := q;
     STOCKFISH_PATH := STOCKFISH_PATH s; displayed := displayed s;
     eval_text := eval_text s; destroyed := destroyed s; dialogs := dialogs s;
     launches := launches s; version := version s; eval_tag := eval_tag s |}.

Definition set_path (p : str) (s : GUI) : GUI :=
  {| board := board s; engine := engine s; analysis_thread := analysis_thread s;
     running := running s; selected_square := selected_square s;
     STOCKFISH_PATH := Some p; displayed := displayed s;
     eval_text := eval_text s; destroyed := destroyed s; dialogs := dialogs s;
     launches := launches s; version := version s; eval_tag := eval_tag s |}.

Definition set_displayed (b : Board) (s : GUI) : GUI :=
  {| board := board s; engine := engine s; analysis_thread := analysis_thread s;
     running := running s; selected_square := selected_square s;
     STOCKFISH_PATH := STOCKFISH_PATH s; displayed := Some b;
     eval_text := eval_text s; destroyed := destroyed s; dialogs := dialogs s;
     launches := launches s; version := version s; eval_tag := eval_tag s |}.

Definition set_eval_text (t : str) (tag : nat * nat) (s : GUI) : GUI :=
  {| board := board s; engine := engine s; analysis_thread := analysis_thread s;
     running := running s; selected_square := selected_square s;
     STOCKFISH_PATH := STOCKFISH_PATH s; displayed := displayed s;
     eval_text := t; destroyed := destroyed s; dialogs := dialogs s;
     launches := launches s; version := version s; eval_tag := Some tag |}.

Definition set_destroyed (s : GUI) : GUI :=
  {| board := board s; engine := engine s; analysis_thread := analysis_thread s;
     running := running s; selected_square := selected_square s;
     STOCKFISH_PATH := STOCKFISH_PATH s; displayed := displayed s;
     eval_text := eval_text s; destroyed := true; dialogs := dialogs s;
     launches := launches s; version := version s; eval_tag := eval_tag s |}.

(** [messagebox.showerror(title, message)] *)
Definition showerror (title message : str) (s : GUI) : GUI :=
  {| board := board s; engine := engine s; analysis_thread := analysis_thread s;
     running := running s; selected_square := selected_square s;
     STOCKFISH_PATH := STOCKFISH_PATH s; displayed := displayed s;
     eval_text := eval_text s; destroyed := destroyed s;
     dialogs := dialogs s ++ [(title, message)];
     launches := launches s; version := version s; eval_tag := eval_tag s |}.

Definition launched (p : str) (s : GUI) : GUI :=
  {| board := board s; engine := engine s; analysis_thread := analysis_thread s;
     running := running s; selected_square := selected_square s;
     STOCKFISH_PATH := STOCKFISH_PATH s; displayed := displayed s;
     eval_text := eval_text s; destroyed := destroyed s; dialogs := dialogs s;
     launches := launches s ++ [p]; version := version s; eval_tag := eval_tag s |}.

(** [str(e)] *)
Definition exn_str (e : exn) : str :=
  match e with SystemExit code => str_int code | Error _ msg => msg end.


(** ** Starting up *)

Section Methods.
Variable w : World.

(** [find_stockfish()] *)
Definition find_stockfish (s : GUI) : GUI * result str :=
  let bundled_sf := path_join w (MEIPASS w) (lit "stockfish.exe") in
  if frozen w && path_exists w bundled_sf then (s, Ok bundled_sf)
  else
    let local_sf := path_join w (here w) (lit "stockfish.exe") in
    if path_exists w local_sf then (s, Ok local_sf)
    else
      (showerror (lit "Stockfish Not Found")
         (lit "Stockfish was not found." ++ [10]
          ++ lit "Please make sure 'stockfish.exe' is in the same folder as this program.")
         s,
       Raise (SystemExit 1)).

(** [ChessGUI.start_engine] *)
Definition start_engine (s : GUI) : GUI * result unit :=
  match find_stockfish s with
  | (s1, Raise e) => (s1, Raise e)
  | (s1, Ok path) =>
      let s2 := launched path (set_path path s1) in
      match popen_uci w path with
      | Ok _ => (set_engine (Some {| command := path; calls := [] |}) s2, Ok tt)
      | Raise e =>
          if is_Exception e then
            (showerror (lit "Engine Error")
               (lit "Could not start Stockfish:" ++ [10] ++ exn_str e) s2,
             Raise (SystemExit 1))
          else (s2, Raise e)
      end
  end.

(** [ChessGUI.update_board]: sets the texts of the 64 labels from the
    piece placement of [self.board]; a widget of a destroyed [root]
    raises [TclError]. *)
Definition update_board (s : GUI) : GUI * result unit :=
  if destroyed s then (s, raise_ TclError)
  else (set_displayed (board s) s, Ok tt).

(** [ChessGUI.start_analysis] *)
Definition start_analysis (s : GUI) : GUI :=
  set_thread (Some LoopHead) (set_running true s).

(** The state [ChessGUI.__init__] builds before its four calls. *)
Definition fresh : GUI :=
  {| board := new_board; engine := None; analysis_thread := None;
     running := false; selected_square := None; STOCKFISH_PATH := None;
     displayed := None; eval_text := []; destroyed := false; dialogs := [];
     launches := []; version := 0; eval_tag := None |}.

(** [ChessGUI.__init__]: [create_widgets] only builds widgets.  The
    state returned is the state at [Thread.start()]; the steps the new
    thread takes, before or after [__init__] returns, are events of
    the run that follows. *)
Definition init : GUI * result unit :=
  match start_engine fresh with
  | (s1, Raise e) => (s1, Raise e)
  | (s1, Ok _) =>
      match update_board s1 with
      | (s2, Raise e) => (s2, Raise e)
      | (s2, Ok _) => (start_analysis s2, Ok tt)
      end
  end.

(** ** The analysis loop *)

(** The [eval_str] of one score (lines 120-124). *)
Definition eval_str (sc : Score) : result str :=
  if is_mate sc then
    Ok (lit "Mate in "
        ++ match mate sc with Some n => str_int n | None => lit "None" end)
  else
    match score sc with
    | Some n => Ok (format_hundredths n)
    | None => raise_ TypeError
    end.

(** One turn of the [for] loop (lines 120-127): the line for the
    [idx]-th entry. *)
Definition pv_line (idx : Z) (info : InfoDict) : result str :=
  match info_score info with
  | None => raise_ KeyError
  | Some ps =>
      ev <- eval_str (white ps) ;;
      let move_line :=
        join (lit " ")
          (map uci match info_pv info with Some pv => pv | None => [] end) in
      Ok (lit "PV" ++ str_int idx ++ lit ": " ++ ev ++ lit " | " ++ move_line)
  end.

(** The [for] loop over [enumerate(result, start=idx)]. *)
Fixpoint pv_lines (idx : Z) (infos : list InfoDict) : result (list str) :=
  match infos with
  | [] => Ok []
  | info :: rest =>
      l <- pv_line idx info ;;
      ls <- pv_lines (idx + 1) rest ;;
      Ok (l :: ls)
  end.

(** [self.engine.analyse(self.board, Limit(depth=12), multipv=3)]:
    the engine after the call, and the answer. *)
Definition engine_analyse (s : GUI) : GUI * result (list InfoDict) :=
  match engine s with
  | None => (s, raise_ AttributeError)
  | Some e =>
      (set_engine (Some (called e (CallAnalyse (board s) 12 3))) s,
       analyse w (List.length (calls e)) (board s))
  end.

(** The body of the [while] loop up to [time.sleep(2)] (lines
    109-128).  An [Exception] leads back to the head of the loop
    ([except Exception: pass]); anything else ends the thread. *)
Definition analyze_request (s : GUI) : GUI :=
  let seq := match engine s with Some e => List.length (calls e) | None => O end in
  let ver := version s in
  match engine_analyse s with
  | (s1, Ok infos) =>
      match pv_lines 1 infos with
      | Ok lines => set_thread (Some (Sleeping lines seq ver)) s1
      | Raise e => if is_Exception e then s1 else set_thread (Some Finished) s1
      end
  | (s1, Raise e) => if is_Exception e then s1 else set_thread (Some Finished) s1
  end.

(** The rest of the body, after the sleep (lines 131-132): the text
    box is emptied and filled with the lines.  On a destroyed window
    the first widget call raises [TclError], which is swallowed. *)
Definition analyze_publish (lines : list str) (seq ver : nat) (s : GUI) : GUI :=
  if destroyed s then set_thread (Some LoopHead) s
  else set_thread (Some LoopHead) (set_eval_text (join [10] lines) (seq, ver) s).

(** One step of the thread running [ChessGUI.analyze]: from the head
    of the loop, the test of [running] together with the call that
    follows it ([fine_tick] takes them apart). *)
Definition analyze_step (s : GUI) : GUI :=
  match analysis_thread s with
  | Some LoopHead =>
      if running s then analyze_request s else set_thread (Some Finished) s
  | Some (Sleeping lines seq ver) => analyze_publish lines seq ver s
  | Some Finished | None => s
  end.

(** [ChessGUI.analyze] run alone for at most [fuel] steps. *)
Fixpoint analyze (fuel : nat) (s : GUI) : GUI :=
  match fuel with
  | O => s
  | S fuel' => analyze fuel' (analyze_step s)
  end.

(** ** The click handler and the buttons *)

(** [ChessGUI.square_to_uci] *)
Definition square_to_uci (r c : Z) : result str :=
  file <- chr (ord_a + c) ;;
  let rank := str_int (8 - r) in
  Ok (file ++ rank).

(** The truth value of [self.selected_square]. *)
Definition selected (s : GUI) : option str :=
  match selected_square s with
  | Some (ch :: rest) => Some (ch :: rest)
  | _ => None
  end.

(** [ChessGUI.square_clicked] *)
Definition square_clicked (r c : Z) (s : GUI) : GUI * result unit :=
  match square_to_uci r c with
  | Raise e => (s, Raise e)
  | Ok square =>
      match selected s with
      | Some sel =>
          match from_uci (sel ++ square) with
          | Raise e => (s, Raise e)
          | Ok move =>
              let s1 :=
                if is_legal (move_stack (board s)) move
                then set_board (push (board s) move) s else s in
              update_board (set_selected None s1)
          end
      | None =>
          match parse_square square with
          | Raise e => (s, Raise e)
          | Ok sq =>
              let s1 :=
                if piece_at (move_stack (board s)) sq
                then set_selected (Some square) s else s in
              update_board s1
          end
      end
  end.

(** [ChessGUI.play_move] *)
Definition play_move (s : GUI) : GUI * result unit :=
  let caught (e : exn) (s' : GUI) : GUI * result unit :=
    if is_Exception e then (showerror (lit "Error") (exn_str e) s', Ok tt)
    else (s', Raise e) in
  match engine s with
  | None => caught (Error AttributeError []) s
  | Some e =>
      let s1 := set_engine (Some (called e (CallPlay (board s) 15))) s in
      match play w (List.length (calls e)) (board s) with
      | Raise ex => caught ex s1
      | Ok move =>
          match update_board (set_board (push (board s1) move) s1) with
          | (s2, Raise ex) => caught ex s2
          | (s2, Ok _) => (s2, Ok tt)
          end
      end
  end.

(** [ChessGUI.undo_move] *)
Definition undo_move (s : GUI) : GUI * result unit :=
  if (0 <? Z.of_nat (List.length (move_stack (board s)))) then
    match pop (board s) with
    | Raise e => (s, Raise e)
    | Ok b => update_board (set_board b s)
    end
  else (s, Ok tt).

(** [root.destroy()]: a second call raises [TclError]. *)
Definition root_destroy (s : GUI) : GUI * result unit :=
  if destroyed s then (s, raise_ TclError) else (set_destroyed s, Ok tt).

(** [ChessGUI.quit_game] *)
Definition quit_game (s : GUI) : GUI * result unit :=
  let s1 := set_running false s in
  match engine s1 with
  | Some e =>
      let s2 := set_engine (Some (called e CallQuit)) s1 in
      match quit w (List.length (calls e)) with
      | Raise ex => (s2, Raise ex)
      | Ok _ => root_destroy s2
      end
  | None => root_destroy s1
  end.

(** ** Runs

    The Tk main loop runs one handler at a time; the analysis thread
    advances between them.  A run is a list of events; an exception
    leaving a handler is reported by Tk and the main loop goes on. *)
Inductive event :=
| Click (r c : Z)
| PlayButton
| UndoButton
| QuitButton
| Tick.

Definition step (s : GUI) (ev : event) : GUI :=
  match ev with
  | Click r c => fst (square_clicked r c s)
  | PlayButton => fst (play_move s)
  | UndoButton => fst (undo_move s)
  | QuitButton => fst (quit_game s)
  | Tick => analyze_step s
  end.

Definition run (evs : list event) (s : GUI) : GUI := fold_left step evs s.

(** ** Vocabulary of the properties *)

(** The calls made on the engine so far, and their number. *)
Definition engine_calls (s : GUI) : list EngineCall :=
  match engine s with Some e => calls e | None => [] end.





(** A run of clicks only, each the (row, column) of a cell. *)
Definition click_all (cells : list (Z * Z)) (s : GUI) : GUI :=
  fold_left (fun s' cell => fst (square_clicked (fst cell) (snd cell) s')) cells s.

(** An [analyse] call, among the calls made on the engine. *)
Definition is_analyse (c : EngineCall) : bool :=
  match c with CallAnalyse _ _ _ => true | _ => false end.

(** The entry has the key ["score"]. *)
Definition has_score (info : InfoDict) : bool :=
  match info_score info with Some _ => true | None => false end.

(** A click on a cell or on the Undo button. *)
Definition click_or_undo (ev : event) : Prop :=
  match ev with Click _ _ | UndoButton => True | _ => False end.

(** The number of [analyse] calls made so far. *)
Definition analyse_count (s : GUI) : nat :=
  List.length (filter is_analyse (engine_calls s)).

(** The thread of [analyze] in smaller steps.  [analyze_step] takes
    the test of [while self.running] (line 108) and the call of
    [engine.analyse] (line 111) in one step; the main loop can run a
    handler between the two.  Here they are two steps: the flag says
    that the test has passed and that the call comes next. *)
Definition fine_tick (st : GUI * bool) : GUI * bool :=
  let (s, passed) := st in
  match analysis_thread s with
  | Some LoopHead =>
      if passed then (analyze_request s, false)
      else if running s then (s, true)
      else (set_thread (Some Finished) s, false)
  | Some (Sleeping lines seq ver) => (analyze_publish lines seq ver s, false)
  | Some Finished | None => (s, passed)
  end.

Definition fine_step (st : GUI * bool) (ev : event) : GUI * bool :=
  match ev with
  | Tick => fine_tick st
  | _ => (step (fst st) ev, snd st)
  end.

Definition fine_run (evs : list event) (st : GUI * bool) : GUI * bool :=
  fold_left fine_step evs st.

End Methods.
End Program.

(** ** The widgets

    The part of [create_widgets] and [update_board] that concerns the
    64 labels of the board, which the record [GUI] keeps only as
    [displayed]. *)

Module Widgets.

(** A [tk.Label] of the board: its text and background, the grid cell
    it was placed in, and the arguments its click passes to
    [square_clicked]. *)
Record Label := {
  text : str;
  bg : str;
  grid_row : Z;
  grid_column : Z;
  button1 : Z * Z;
}.

(** The dict [self.squares], keyed by (row, column). *)
Definition dict := list ((Z * Z) * Label).

Definition key_eqb (a b : Z * Z) : bool := (fst a =? fst b) && (snd a =? snd b).

(** [d.get(k)] *)
Fixpoint get (k : Z * Z) (d : dict) : option Label :=
  match d with
  | [] => None
  | (k', v) :: rest => if key_eqb k k' then Some v else get k rest
  end.

(** [d[k] = v] *)
Fixpoint set_item (k : Z * Z) (v : Label) (d : dict) : dict :=
  match d with
  | [] => [(k, v)]
  | (k', v') :: rest =>
      if key_eqb k k' then (k', v) :: rest else (k', v') :: set_item k v rest
  end.

(** [d[k].config(text=t)]: [KeyError] when the key is absent. *)
Definition config_text (k : Z * Z) (t : str) (d : dict) : result dict :=
  match get k d with
  | None => raise_ KeyError
  | Some l =>
      Ok (set_item k {| text := t; bg := bg l; grid_row := grid_row l;
                        grid_column := grid_column l; button1 := button1 l |} d)
  end.

(** [range(8)] *)
Definition range8 : list Z := map Z.of_nat (seq 0 8).

(** [colors] in [create_widgets] *)
Definition colors : list str := [lit "#f0d9b5"; lit "#b58863"].

(** [ChessGUI.create_widgets], lines 51-68: the dict of labels. *)
Definition create_widgets : dict :=
  fold_left
    (fun squares r =>
       fold_left
         (fun squares c =>
            let color := nth (Z.to_nat ((r + c) mod 2)) colors [] in
            let lbl := {| text := lit " "; bg := color; grid_row := r;
                          grid_column := c; button1 := (r, c) |} in
            set_item (r, c) lbl squares)
         range8 squares)
    range8 [].

(** [symbols] in [get_piece_symbol] *)
Definition symbols : list (str * str) :=
  [ (lit "P", [9817]); (lit "N", [9816]); (lit "B", [9815]);
    (lit "R", [9814]); (lit "Q", [9813]); (lit "K", [9812]);
    (lit "p", [9823]); (lit "n", [9822]); (lit "b", [9821]);
    (lit "r", [9820]); (lit "q", [9819]); (lit "k", [9818]) ].

(** [ChessGUI.get_piece_symbol]: [symbols.get(piece_char, "?")] *)
Definition get_piece_symbol (piece_char : str) : str :=
  match find (fun entry => str_eqb piece_char (fst entry)) symbols with
  | Some entry => snd entry
  | None => lit "?"
  end.

(** What Python's character tables say beyond ASCII: whether a
    character counts for [str.isdigit], and what [int] makes of it. *)
Record Unicode := {
  uni_isdigit : Z -> bool;
  uni_int : Z -> result Z;
}.

(** [ch.isdigit()] for one character *)
Definition isdigit (U : Unicode) (ch : Z) : bool :=
  if ch <? 128 then (48 <=? ch) && (ch <=? 57) else uni_isdigit U ch.

(** [int(ch)] for one character *)
Definition int_char (U : Unicode) (ch : Z) : result Z :=
  if ch <? 128 then
    if (48 <=? ch) && (ch <=? 57) then Ok (ch - 48) else raise_ ValueError
  else uni_int U ch.

(** [text.split(sep)] for a separator of one character *)
Fixpoint split (sep : Z) (text : str) : list str :=
  match text with
  | [] => [[]]
  | ch :: rest =>
      if ch =? sep then [] :: split sep rest
      else
        match split sep rest with
        | [] => [[ch]]
        | first :: others => (ch :: first) :: others
        end
  end.

(** The loop [for _ in range(n)] of [update_board] (lines 162-164):
    the dict and the column reached. *)
Fixpoint draw_blanks (n : nat) (r c : Z) (squares : dict) : dict * result Z :=
  match n with
  | O => (squares, Ok c)
  | S n' =>
      match config_text (r, c) (lit " ") squares with
      | Raise e => (squares, Raise e)
      | Ok squares' => draw_blanks n' r (c + 1) squares'
      end
  end.

(** The loop [for ch in row] (lines 160-167). *)
Fixpoint draw_row (U : Unicode) (r : Z) (row : str) (c : Z) (squares : dict)
  : dict * result Z :=
  match row with
  | [] => (squares, Ok c)
  | ch :: rest =>
      if isdigit U ch then
        match int_char U ch with
        | Raise e => (squares, Raise e)
        | Ok n =>
            match draw_blanks (Z.to_nat n) r c squares with
            | (squares', Raise e) => (squares', Raise e)
            | (squares', Ok c') => draw_row U r rest c' squares'
            end
        end
      else
        match config_text (r, c) (get_piece_symbol [ch]) squares with
        | Raise e => (squares, Raise e)
        | Ok squares' => draw_row U r rest (c + 1) squares'
        end
  end.

(** The loop [for r in range(8)] (lines 157-167), over the rows left
    to draw; [rows[r]] raises [IndexError] past the end. *)
Fixpoint draw_rows (U : Unicode) (rs : list Z) (rows : list str) (squares : dict)
  : dict * result unit :=
  match rs with
  | [] => (squares, Ok tt)
  | r :: rs' =>
      match nth_error rows (Z.to_nat r) with
      | None => (squares, raise_ IndexError)
      | Some row =>
          match draw_row U r row 0 squares with
          | (squares', Raise e) => (squares', Raise e)
          | (squares', Ok _) => draw_rows U rs' rows squares'
          end
      end
  end.

(** [ChessGUI.update_board] on the labels, from the first field
    [board_fen] of [self.board.fen()] (lines 156-167). *)
Definition update_board_squares (U : Unicode) (board_fen : str) (squares : dict)
  : dict * result unit :=
  let rows := split 47 board_fen in
  draw_rows U range8 rows squares.

(** python-chess writes the first field of a FEN from the piece on
    each square ([pieces sq] is the symbol of [board.piece_at(sq)]),
    going through [SQUARES_180], a8 to h1. *)
Definition SQUARES_180 : list Z := map (fun sq => Z.lxor sq 56) (map Z.of_nat (seq 0 64)).

(** One turn of the loop of [Board.board_fen]: the text built and the
    count of empty squares pending. *)
Definition board_fen_step (pieces : Z -> option Z) (st : str * Z) (sq : Z) : str * Z :=
  let (builder, empty) := st in
  let (builder, empty) :=
    match pieces sq with
    | None => (builder, empty + 1)
    | Some symbol =>
        ((if empty =? 0 then builder else builder ++ str_int empty) ++ [symbol], 0)
    end in
  if sq mod 8 =? 7 then
    let builder := if empty =? 0 then builder else builder ++ str_int empty in
    let builder := if sq =? 7 then builder else builder ++ lit "/" in
    (builder, 0)
  else (builder, empty).

(** [Board.board_fen()] *)
Definition board_fen (pieces : Z -> option Z) : str :=
  fst (fold_left (board_fen_step pieces) SQUARES_180 ([], 0)).

(** The symbols python-chess gives to pieces. *)
Definition piece_letters : str := lit "PNBRQKpnbrqk".

(** *** Vocabulary for the labels *)

(** The label with another text. *)
Definition with_text (t : str) (l : Label) : Label :=
  {| text := t; bg := bg l; grid_row := grid_row l;
     grid_column := grid_column l; button1 := button1 l |}.

(** [after] is [before] with the texts [f] gives written over it:
    the same keys, and nothing but texts changed. *)
Definition overlay (f : Z * Z -> option str) (before after : dict) : Prop :=
  forall k,
    get k after
    = match f k with
      | Some t => option_map (with_text t) (get k before)
      | None => get k before
      end.

(** The texts [ts] laid from column [c0] of row [r]. *)
Definition row_texts (r c0 : Z) (ts : list str) (k : Z * Z) : option str :=
  if (fst k =? r) && (c0 <=? snd k) && (snd k <? c0 + Z.of_nat (List.length ts))
  then nth_error ts (Z.to_nat (snd k - c0)) else None.

(** What a label shows for a square: a blank, or the piece's glyph. *)
Definition cell_text (cell : option Z) : str :=
  match cell with None => lit " " | Some symbol => get_piece_symbol [symbol] end.

(** The squares of rank [k] (from 0), a-file first. *)
Definition rank_squares (k : Z) : list Z := map (fun f => 8 * k + f) range8.

(** The FEN text of a run of squares after [empty] empty ones. *)
Fixpoint encode_cells (cells : list (option Z)) (empty : Z) : str :=
  match cells with
  | [] => if empty =? 0 then [] else str_int empty
  | None :: rest => encode_cells rest (empty + 1)
  | Some symbol :: rest =>
      (if empty =? 0 then [] else str_int empty) ++ symbol :: encode_cells rest 0
  end.

(** [after] has the keys of [before], and each label is as before
    but for its text. *)
Definition same_but_text (before after : dict) : Prop :=
  forall k,
    match get k before, get k after with
    | Some l, Some l' => l' = with_text (text l') l
    | None, None => True
    | _, _ => False
    end.

(** The number of files a FEN row describes. *)
Fixpoint row_width (U : Unicode) (row : str) : Z :=
  match row with
  | [] => 0
  | ch :: rest =>
      (if isdigit U ch
       then match int_char U ch with Ok n => Z.max 0 n | Raise _ => 0 end
       else 1) + row_width U rest
  end.

End Widgets.

Arguments InfoDict {_}.
Arguments EngineCall {_}.
Arguments SimpleEngine {_}.
Arguments World {_}.
Arguments GUI {_}.
Arguments Board {_}.

(** ** A sample library and sample worlds

    For the worked examples: a stand-in for python-chess that names
    moves as python-chess does and knows the first move of each side
    from the starting position, and worlds in which the engine is
    found and answers, or fails. *)

Module Sample.

Definition square_name (sq : Z) : str := nth (Z.to_nat sq) SQUARE_NAMES [].

(** A move from one square to another (no promotion). *)
Definition SMove : Type := Z * Z.

Definition s_uci (m : SMove) : str := square_name (fst m) ++ square_name (snd m).

Definition s_from_uci (text : str) : result SMove :=
  if (List.length text =? 4)%nat then
    match index (firstn 2 text) SQUARE_NAMES, index (skipn 2 text) SQUARE_NAMES with
    | Ok f, Ok t => if f =? t then raise_ InvalidMoveError else Ok (f, t)
    | _, _ => raise_ InvalidMoveError
    end
  else raise_ InvalidMoveError.

(** The squares occupied after the moves of [ms] (plain moves and
    captures). *)
Fixpoint occupied (ms : list SMove) (sq : Z) : bool :=
  match ms with
  | [] => (sq <? 16) || (48 <=? sq)
  | m :: rest =>
      if sq =? fst m then false
      else if sq =? snd m then true
      else occupied rest sq
  end.

Definition s_piece_at (ms : list SMove) (sq : Z) : bool :=
  (0 <=? sq) && (sq <? 64) && occupied (rev ms) sq.

(** The pawn and knight moves open to the side with [sign] 1 (White)
    or -1 (Black) whose pawns start on the rank beginning at [base]. *)
Definition first_move (sign base knights : Z) (m : SMove) : bool :=
  let (f, t) := m in
  ((base <=? f) && (f <? base + 8) && ((t =? f + 8 * sign) || (t =? f + 16 * sign)))
  || ((f =? knights + 1) && ((t =? f + sign * (16 - sign)) || (t =? f + sign * (16 + sign))))
  || ((f =? knights + 6) && ((t =? f + sign * (16 - sign)) || (t =? f + sign * (16 + sign)))).

Definition s_is_legal (ms : list SMove) (m : SMove) : bool :=
  match ms with
  | [] => first_move 1 8 0 m
  | [_] => first_move (-1) 48 56 m
  | _ => false
  end.

Definition lib : ChessLib :=
  {| Move := SMove; uci := s_uci; from_uci := s_from_uci;
     is_legal := s_is_legal; piece_at := s_piece_at |}.

Definition e2e4 : @Move lib := (12, 28).
Definition e7e5 : @Move lib := (52, 36).
Definition g1f3 : @Move lib := (6, 21).

Definition folder : str := lit "C:" ++ [92] ++ lit "chess".
Definition exe : str := folder ++ [92] ++ lit "stockfish.exe".

(** Three lines scored for the side to move of the board sent:
    White after an even number of moves, Black after an odd one. *)
Definition to_move (b : @Board lib) : Color :=
  if Nat.even (List.length (@move_stack lib b)) then WHITE else BLACK.

Definition three_lines (b : @Board lib) : list (@InfoDict lib) :=
  [ {| info_score := Some {| relative := Cp 35; turn := to_move b |};
       info_pv := Some [e7e5; g1f3] |};
    {| info_score := Some {| relative := Cp (-20); turn := to_move b |};
       info_pv := None |};
    {| info_score := Some {| relative := Mate 3; turn := to_move b |};
       info_pv := Some [] |} ].

(** The engine is next to the program, starts and answers. *)
Definition world : @World lib :=
  {| frozen := false; MEIPASS := []; here := folder;
     path_join := fun a b => a ++ [92] ++ b;
     path_exists := fun p => str_eqb p exe;
     popen_uci := fun _ => Ok tt;
     analyse := fun _ b => Ok (three_lines b);
     play := fun _ _ => Ok e2e4;
     quit := fun _ => Ok tt |}.

Definition terminated : exn :=
  Error EngineTerminatedError (lit "engine process died unexpectedly").

(** The engine starts, and is dead from then on. *)
Definition dead_world : @World lib :=
  {| frozen := false; MEIPASS := []; here := folder;
     path_join := fun a b => a ++ [92] ++ b;
     path_exists := fun p => str_eqb p exe;
     popen_uci := fun _ => Ok tt;
     analyse := fun _ _ => Raise terminated;
     play := fun _ _ => Raise terminated;
     quit := fun _ => Raise terminated |}.

(** As [world], with an engine session that refuses a call made
    after [quit]. *)
Definition strict_world : @World lib :=
  {| frozen := false; MEIPASS := []; here := folder;
     path_join := fun a b => a ++ [92] ++ b;
     path_exists := fun p => str_eqb p exe;
     popen_uci := fun _ => Ok tt;
     analyse := fun _ b => Ok (three_lines b);
     play := fun _ _ => Ok e2e4;
     quit := fun n => if (n =? 0)%nat then Ok tt else Raise terminated |}.

(** No [stockfish.exe] anywhere. *)
Definition bare_world : @World lib :=
  {| frozen := true; MEIPASS := lit "C:" ++ [92] ++ lit "tmp"; here := folder;
     path_join := fun a b => a ++ [92] ++ b;
     path_exists := fun _ => false;
     popen_uci := fun _ => Ok tt;
     analyse := fun _ b => Ok (three_lines b);
     play := fun _ _ => Ok e2e4;
     quit := fun _ => Ok tt |}.

(** The file is there but cannot be run. *)
Definition broken_world : @World lib :=
  {| frozen := false; MEIPASS := []; here := folder;
     path_join := fun a b => a ++ [92] ++ b;
     path_exists := fun p => str_eqb p exe;
     popen_uci := fun _ => Raise (Error OtherError (lit "[WinError 193] %1 is not a valid Win32 application"));
     analyse := fun _ b => Ok (three_lines b);
     play := fun _ _ => Ok e2e4;
     quit := fun _ => Ok tt |}.

(** The pieces of the starting position, by square. *)
Definition start_pieces (sq : Z) : option Z :=
  if (8 <=? sq) && (sq <? 16) then Some 80
  else if (48 <=? sq) && (sq <? 56) then Some 112
  else if (0 <=? sq) && (sq <? 8) then nth_error (lit "RNBQKBNR") (Z.to_nat sq)
  else if (56 <=? sq) && (sq <? 64) then nth_error (lit "rnbqkbnr") (Z.to_nat (sq - 56))
  else None.

(** Character tables that know the ASCII digits only. *)
Definition ascii_only : Widgets.Unicode :=
  {| Widgets.uni_isdigit := fun _ => false; Widgets.uni_int := fun _ => raise_ ValueError |}.

(** The program once [__init__] has returned in [world]. *)
Definition started : @GUI lib := fst (@init lib world).

(** The same after the clicks on e2 and e4. *)
Definition moved : @GUI lib := @click_all lib [(6, 4); (4, 4)] started.

End Sample.

(** * Properties *)

(** ** Square names *)

Lemma index_In (x : str) (l : list str) (i : Z) : index x l = Ok i -> In x l.
Proof.
  revert i; induction l as [|y l IH]; simpl; intros i Hi.
  - discriminate.
  - unfold str_eqb in Hi. destruct (list_eq_dec Z.eq_dec x y) as [->|_].
    + now left.
    + right. destruct (index x l) as [j|e]; simpl in Hi; [eauto | discriminate].
Qed.

Ltac grid x Hx :=
  let E := fresh "E" in
  assert (E : x = 0 \/ x = 1 \/ x = 2 \/ x = 3 \/ x = 4 \/ x = 5 \/ x = 6 \/ x = 7)
    by lia;
  clear Hx;
  repeat (destruct E as [E|E]; [subst x | ]); [ .. | subst x].

Lemma chr_file (c : Z) : 0 <= c <= 7 -> chr (ord_a + c) = Ok [97 + c].
Proof. intros Hc. grid c Hc; reflexivity. Qed.

Lemma str_rank (r : Z) : 0 <= r <= 7 -> str_int (8 - r) = [56 - r].
Proof. intros Hr. grid r Hr; reflexivity. Qed.

Lemma square_to_uci_value (r c : Z) :
  0 <= r <= 7 -> 0 <= c <= 7 -> square_to_uci r c = Ok [97 + c; 56 - r].
Proof.
  intros Hr Hc. unfold square_to_uci.
  rewrite (chr_file c Hc), (str_rank r Hr). reflexivity.
Qed.

Lemma parse_square_grid (r c : Z) :
  0 <= r <= 7 -> 0 <= c <= 7 ->
  parse_square [97 + c; 56 - r] = Ok ((7 - r) * 8 + c).
Proof. intros Hr Hc. grid r Hr; grid c Hc; reflexivity. Qed.

(** C10. For a row [r] and a column [c] of the 8x8 grid,
    [square_to_uci r c] returns the two-character name made of the
    file [chr(ord("a") + c)] and the rank [str(8 - r)]; that name is
    one of the 64 square names a1..h8 (python-chess parses it, to the
    square [(7 - r) * 8 + c]); and no other cell of the grid gets the
    same name. *)
Theorem square_to_uci_grid (r c : Z) :
  0 <= r <= 7 -> 0 <= c <= 7 ->
  exists file rank,
    chr (ord_a + c) = Ok [file] /\ str_int (8 - r) = [rank]
    /\ square_to_uci r c = Ok [file; rank]
    /\ In [file; rank] SQUARE_NAMES
    /\ parse_square [file; rank] = Ok ((7 - r) * 8 + c)
    /\ forall r' c', 0 <= r' <= 7 -> 0 <= c' <= 7 ->
         square_to_uci r' c' = square_to_uci r c -> r' = r /\ c' = c.
Proof.
  intros Hr Hc. exists (97 + c), (56 - r).
  split; [now apply chr_file|].
  split; [now apply str_rank|].
  split; [now apply square_to_uci_value|].
  split; [eapply index_In; apply (parse_square_grid r c Hr Hc)|].
  split; [now apply parse_square_grid|].
  intros r' c' Hr' Hc' E.
  rewrite (square_to_uci_value r c Hr Hc), (square_to_uci_value r' c' Hr' Hc') in E.
  assert (E1 : 97 + c' = 97 + c) by congruence.
  assert (E2 : 56 - r' = 56 - r) by congruence.
  lia.
Qed.

(** The cell of row 6, column 4 is e2, square 12. *)
Lemma square_to_uci_grid_e2 :
  exists file rank,
    chr (ord_a + 4) = Ok [file] /\ str_int (8 - 6) = [rank]
    /\ square_to_uci 6 4 = Ok [file; rank]
    /\ In [file; rank] SQUARE_NAMES
    /\ parse_square [file; rank] = Ok ((7 - 6) * 8 + 4)
    /\ forall r' c', 0 <= r' <= 7 -> 0 <= c' <= 7 ->
         square_to_uci r' c' = square_to_uci 6 4 -> r' = 6 /\ c' = 4.
Proof. apply (square_to_uci_grid 6 4); lia. Defined.

(** ** The board under clicks and undo *)

Section BoardProperties.
Context `{ChessLib}.

Lemma update_board_board (s : GUI) : board (fst (update_board s)) = board s.
Proof. unfold update_board. now destruct (destroyed s). Qed.

Lemma update_board_selected (s : GUI) :
  selected_square (fst (update_board s)) = selected_square s.
Proof. unfold update_board. now destruct (destroyed s). Qed.

(** A click leaves the board as it was or pushes a move that is legal
    on it. *)
Lemma square_clicked_board (r c : Z) (s : GUI) :
  board (fst (square_clicked r c s)) = board s
  \/ exists m, is_legal (move_stack (board s)) m = true
              /\ board (fst (square_clicked r c s)) = push (board s) m.
Proof.
  unfold square_clicked.
  destruct (square_to_uci r c) as [square|e]; [|now left].
  destruct (selected s) as [sel|].
  - destruct (from_uci (sel ++ square)) as [m|e]; [|now left].
    rewrite update_board_board. simpl.
    destruct (is_legal (move_stack (board s)) m) eqn:L.
    + right. exists m. now split.
    + now left.
  - destruct (parse_square square) as [sq|e]; [|now left].
    rewrite update_board_board.
    destruct (piece_at (move_stack (board s)) sq); now left.
Qed.



(** C9. [undo_move] on an empty move history returns without an
    error and leaves everything as it was; on a history that ends with
    the move [m] it removes [m] and nothing else from the history (and
    returns without an error while the window exists). *)
Theorem undo_move_history (s : GUI) :
  (move_stack (board s) = [] -> undo_move s = (s, Ok tt))
  /\ (forall ms m,
        move_stack (board s) = ms ++ [m] ->
        move_stack (board (fst (undo_move s))) = ms
        /\ (destroyed s = false -> snd (undo_move s) = Ok tt)).
Proof.
  split.
  - intros E. unfold undo_move. now rewrite E.
  - intros ms m E. unfold undo_move, pop. rewrite E.
    rewrite length_app, Nat.add_comm. simpl.
    destruct ms as [|m0 ms']; simpl.
    + rewrite update_board_board. simpl. split; [reflexivity|].
      intros D. unfold update_board. simpl. now rewrite D.
    + rewrite update_board_board. simpl.
      replace (match ms' ++ [m] with [] => [] | _ :: _ => m0 :: removelast (ms' ++ [m]) end)
        with (removelast ((m0 :: ms') ++ [m])) by reflexivity.
      rewrite removelast_last. split; [reflexivity|].
      intros D. unfold update_board. simpl. now rewrite D.
Qed.

End BoardProperties.

(** ** The analysis loop *)

Section LoopProperties.
Context `{ChessLib}.
Variable w : World.

(** Case analysis on an innermost scrutinee of the goal. *)
Ltac innermost x :=
  lazymatch x with
  | context [match _ with _ => _ end] => fail
  | context [if _ then _ else _] => fail
  | _ => destruct x eqn:?
  end.

Ltac split_match :=
  match goal with
  | |- context [match ?x with _ => _ end] => innermost x
  | |- context [if ?x then _ else _] => innermost x
  end.

Ltac unfold_handlers :=
  unfold step, square_clicked, play_move, undo_move, quit_game, root_destroy,
    update_board, analyze_step, analyze_request, analyze_publish, engine_analyse.


(** What a step of the analysis thread leaves alone. *)
Lemma tick_frame (s : GUI) :
  board (analyze_step w s) = board s
  /\ version (analyze_step w s) = version s
  /\ running (analyze_step w s) = running s
  /\ dialogs (analyze_step w s) = dialogs s
  /\ destroyed (analyze_step w s) = destroyed s.
Proof.
  unfold_handlers.
  destruct (engine s) as [e|] eqn:E; destruct (destroyed s) eqn:D;
    repeat (split_match; simpl; rewrite ?E, ?D; simpl);
    repeat split; congruence.
Qed.

(** A turn of the loop taken while [running] is set and an engine is
    there sends one [analyse] call, for the board as it is, whatever
    happened before; any other step of the thread sends nothing. *)
Lemma analyze_step_calls (s : GUI) :
  match analysis_thread s, running s, engine s with
  | Some LoopHead, true, Some e =>
      engine_calls (analyze_step w s) = calls e ++ [CallAnalyse (board s) 12 3]
  | _, _, _ => engine_calls (analyze_step w s) = engine_calls s
  end.
Proof.
  unfold engine_calls. unfold_handlers.
  destruct (engine s) as [e|] eqn:E; destruct (destroyed s) eqn:D;
    repeat (split_match; simpl; rewrite ?E, ?D; simpl); congruence.
Qed.






(** The four ways [start_engine] can end. *)
Lemma find_stockfish_cases (s : GUI) :
  (exists p, find_stockfish w s = (s, Ok p))
  \/ (exists t m, find_stockfish w s = (showerror t m s, Raise (SystemExit 1))).
Proof.
  unfold find_stockfish.
  destruct (frozen w && path_exists w _); [left; eauto|].
  destruct (path_exists w _); [left; eauto | right; eauto].
Qed.

Lemma start_engine_cases (s : GUI) :
  (exists p,
      snd (find_stockfish w s) = Ok p /\ popen_uci w p = Ok tt
      /\ start_engine w s
         = (set_engine (Some {| command := p; calls := [] |})
              (launched p (set_path p s)), Ok tt))
  \/ (exists t m,
        (forall p, snd (find_stockfish w s) <> Ok p)
        /\ start_engine w s = (showerror t m s, Raise (SystemExit 1)))
  \/ (exists p e t m,
        snd (find_stockfish w s) = Ok p /\ popen_uci w p = Raise e
        /\ is_Exception e = true
        /\ start_engine w s
           = (showerror t m (launched p (set_path p s)), Raise (SystemExit 1)))
  \/ (exists p e,
        snd (find_stockfish w s) = Ok p /\ popen_uci w p = Raise e
        /\ is_Exception e = false
        /\ start_engine w s = (launched p (set_path p s), Raise e)).
Proof.
  unfold start_engine.
  destruct (find_stockfish_cases s) as [[p ->]|(t & m & ->)].
  - cbn [snd]. destruct (popen_uci w p) as [[]|e] eqn:P.
    + left. exists p. auto.
    + destruct (is_Exception e) eqn:X.
      * right; right; left. exists p, e. do 2 eexists.
        repeat split; try reflexivity; assumption.
      * right; right; right. exists p, e. auto.
  - right; left. exists t, m. split; [|reflexivity]. intros p. discriminate.
Qed.




(** C4, as the program has it. A turn of the loop taken while
    [running] is set sends a new [analyse] call for the board as it
    is, whether or not the board has changed since the last call. *)
Theorem request_every_cycle (s : GUI) (e : SimpleEngine) :
  analysis_thread s = Some LoopHead -> running s = true -> engine s = Some e ->
  engine_calls (analyze_step w s) = calls e ++ [CallAnalyse (board s) 12 3].
Proof.
  intros T R E. pose proof (analyze_step_calls s) as A.
  now rewrite T, R, E in A.
Qed.

(** C3, as the program has it. When the [analyse] call of a turn
    raises an exception, the loop swallows it: apart from the record
    of the call nothing changes (no dialog, nothing shown, [running]
    still set), and the thread is back at the head of the loop, where
    its next step sends a new call. *)
Theorem failure_swallowed (s : GUI) (e : SimpleEngine) (ex : exn) :
  analysis_thread s = Some LoopHead -> running s = true -> engine s = Some e ->
  analyse w (List.length (calls e)) (board s) = Raise ex -> is_Exception ex = true ->
  analyze_step w s = set_engine (Some (called e (CallAnalyse (board s) 12 3))) s
  /\ running (analyze_step w s) = true
  /\ analysis_thread (analyze_step w s) = Some LoopHead
  /\ dialogs (analyze_step w s) = dialogs s
  /\ eval_text (analyze_step w s) = eval_text s
  /\ engine_calls (analyze_step w (analyze_step w s))
     = calls e ++ [CallAnalyse (board s) 12 3; CallAnalyse (board s) 12 3].
Proof.
  intros T R E A X.
  assert (S1 : analyze_step w s
               = set_engine (Some (called e (CallAnalyse (board s) 12 3))) s).
  { unfold analyze_step, analyze_request, engine_analyse. now rewrite T, R, E, A, X. }
  rewrite S1. repeat split; try assumption.
  pose proof (analyze_step_calls
                (set_engine (Some (called e (CallAnalyse (board s) 12 3))) s)) as N.
  simpl in N. rewrite T, R in N. rewrite N, <- app_assoc. reflexivity.
Qed.

(** C2, as the program has it. The centipawn value shown for a line
    is the engine's value seen from White's side ([.white()]): the
    value for the side to move when White is to move, its negation
    when Black is to move. *)
Theorem centipawns_white_pov (idx : Z) (info : InfoDict) (ps : PovScore) (v : Z) :
  info_score info = Some ps -> relative ps = Cp v ->
  score (white ps) = Some (match turn ps with WHITE => v | BLACK => - v end)
  /\ pv_line idx info
     = Ok (lit "PV" ++ str_int idx ++ lit ": "
           ++ format_hundredths (match turn ps with WHITE => v | BLACK => - v end)
           ++ lit " | "
           ++ join (lit " ")
                (map uci match info_pv info with Some pv => pv | None => [] end)).
Proof.
  intros S R. unfold pv_line, eval_str, white, pov. rewrite S, R.
  destruct (turn ps); simpl; split; reflexivity.
Qed.

Lemma start_engine_fails (s : GUI) :
  (forall p, snd (find_stockfish w s) = Ok p ->
             exists e, popen_uci w p = Raise e /\ is_Exception e = true) ->
  exists s' title message,
    start_engine w s = (s', Raise (SystemExit 1))
    /\ engine s' = engine s
    /\ analysis_thread s' = analysis_thread s
    /\ running s' = running s
    /\ dialogs s' = dialogs s ++ [(title, message)]
    /\ (List.length (launches s') <= S (List.length (launches s)))%nat.
Proof.
  intros U.
  destruct (start_engine_cases s)
    as [(p & F & P & S)|[(t & m & _ & S)|[(p & e & t & m & _ & _ & _ & S)|(p & e & F & P & X & S)]]].
  - destruct (U p F) as (e & P' & _). congruence.
  - exists (showerror t m s), t, m. rewrite S. repeat split. simpl. lia.
  - exists (showerror t m (launched p (set_path p s))), t, m. rewrite S.
    repeat split. simpl. rewrite length_app. simpl. lia.
  - destruct (U p F) as (e' & P' & X'). congruence.
Qed.

(** C6. If the engine cannot be launched ([stockfish.exe] is not
    found, or [popen_uci] raises), [start_engine] fails: it raises
    [SystemExit(1)] to its caller after showing one error dialog,
    leaves [self.engine] unset, and has tried to launch at most once;
    [__init__] fails with it and never starts the analysis. *)
Theorem engine_unavailable :
  (forall p, snd (find_stockfish w fresh) = Ok p ->
             exists e, popen_uci w p = Raise e /\ is_Exception e = true) ->
  exists s' title message,
    start_engine w fresh = (s', Raise (SystemExit 1))
    /\ init w = (s', Raise (SystemExit 1))
    /\ engine s' = None
    /\ analysis_thread s' = None
    /\ running s' = false
    /\ dialogs s' = [(title, message)]
    /\ (List.length (launches s') <= 1)%nat.
Proof.
  intros U.
  destruct (start_engine_fails fresh U) as (s' & t & m & S & E & T & R & D & L).
  exists s', t, m. unfold init. rewrite S.
  repeat split; [exact E | exact T | exact R | exact D | exact L].
Qed.

(** C7, as the program has it. A [quit_game] that completes clears
    [running], calls [quit] on the engine and destroys the window, but
    keeps the engine in [self.engine]; called again it calls [quit] on
    the engine once more and does not complete: it raises (from the
    engine, or from destroying a window already destroyed), with
    [running] still cleared and the engine still kept. *)
Theorem quit_game_twice (s s1 : GUI) :
  quit_game w s = (s1, Ok tt) ->
  running s1 = false /\ destroyed s1 = true
  /\ engine_calls s1
     = match engine s with Some _ => engine_calls s ++ [CallQuit] | None => [] end
  /\ (engine s1 = None <-> engine s = None)
  /\ exists s2 ex,
       quit_game w s1 = (s2, Raise ex)
       /\ running s2 = false /\ destroyed s2 = true
       /\ engine_calls s2
          = match engine s with Some _ => engine_calls s1 ++ [CallQuit] | None => [] end
       /\ (engine s2 = None <-> engine s = None).
Proof.
  unfold quit_game, root_destroy, engine_calls. intros Q.
  destruct (engine s) as [e|] eqn:E; simpl in Q; rewrite ?E in Q.
  - destruct (quit w (List.length (calls e))) as [[]|ex]; [|discriminate].
    simpl in Q. destruct (destroyed s); [discriminate|].
    injection Q as <-. simpl.
    do 4 (split; [first [reflexivity | split; discriminate]|]).
    destruct (quit w _) as [[]|ex]; do 2 eexists;
      (split; [reflexivity|]); simpl;
      do 3 (split; [reflexivity|]); split; discriminate.
  - destruct (destroyed s) eqn:D; [discriminate|].
    injection Q as <-. simpl. rewrite E.
    do 4 (split; [first [reflexivity | split; reflexivity]|]).
    do 2 eexists. (split; [reflexivity|]). simpl. rewrite E.
    do 3 (split; [reflexivity|]). split; reflexivity.
Qed.

End LoopProperties.

(** ** More on square names *)

Lemma lit_inj (a b : string) : lit a = lit b -> a = b.
Proof.
  revert b. induction a as [|x a IH]; intros [|y b]; simpl; try discriminate; auto.
  intros E. injection E as E1 E2.
  apply N2Z.inj in E1.
  rewrite <- (ascii_N_embedding x), <- (ascii_N_embedding y), E1.
  f_equal. now apply IH.
Qed.

Lemma to_int_nonnil (n : Z) : Z.to_int n <> Decimal.Pos Decimal.Nil /\ Z.to_int n <> Decimal.Neg Decimal.Nil.
Proof.
  destruct n as [|p|p]; simpl; split; try discriminate;
    intros E; injection E as E; now apply DecimalPos.Unsigned.to_uint_nonnil in E.
Qed.

(** [str] is one-to-one on the integers. *)
Lemma str_int_inj (a b : Z) : str_int a = str_int b -> a = b.
Proof.
  unfold str_int. intros E. apply lit_inj in E.
  apply DecimalZ.to_int_inj.
  assert (S : Some (Z.to_int a) = Some (Z.to_int b)).
  { destruct (to_int_nonnil a) as [A1 A2]. destruct (to_int_nonnil b) as [B1 B2].
    rewrite <- (NilZero.isi (Z.to_int a) A1 A2), <- (NilZero.isi (Z.to_int b) B1 B2).
    now rewrite E. }
  now injection S.
Qed.

Lemma square_name_shape (n : str) :
  In n SQUARE_NAMES ->
  exists f k, n = [f; k] /\ 97 <= f <= 104 /\ 49 <= k <= 56 /\ str_int (k - 48) = [k].
Proof.
  intros Hn. unfold SQUARE_NAMES in Hn. apply in_flat_map in Hn.
  destruct Hn as (rk & Hr & Hn). apply in_map_iff in Hn.
  destruct Hn as (fl & <- & Hf).
  simpl in Hr, Hf.
  repeat (destruct Hr as [<-|Hr]; [|]); try contradiction;
    repeat (destruct Hf as [<-|Hf]; [|]); try contradiction;
    do 2 eexists; (split; [reflexivity|]); repeat split; try lia; reflexivity.
Qed.

(** X1. Wherever it returns, [square_to_uci] tells cells apart, and what
    it returns is one of the 64 square names only for a cell of the
    grid: a row or column outside 0..7 gives [ValueError] or a text
    that python-chess does not accept as a square. *)
Theorem square_to_uci_only_grid (r c : Z) (name : str) :
  square_to_uci r c = Ok name ->
  (forall r' c', square_to_uci r' c' = Ok name -> r' = r /\ c' = c)
  /\ (In name SQUARE_NAMES -> 0 <= r <= 7 /\ 0 <= c <= 7)
  /\ (~ (0 <= r <= 7 /\ 0 <= c <= 7) -> parse_square name = Raise (Error ValueError [])).
Proof.
  unfold square_to_uci, chr. intros E.
  destruct ((0 <=? ord_a + c) && (ord_a + c <? 1114112)) eqn:B; [|discriminate].
  cbn [bind app] in E.
  assert (N : name = (ord_a + c) :: str_int (8 - r)) by congruence.
  clear E. subst name.
  assert (G : In ((ord_a + c) :: str_int (8 - r)) SQUARE_NAMES ->
              0 <= r <= 7 /\ 0 <= c <= 7).
  { intros Hn. destruct (square_name_shape _ Hn) as (f & k & E & Hf & Hk & Sk).
    pose proof (f_equal (hd 0) E) as E1. pose proof (f_equal (@tl Z) E) as E2.
    cbn [hd tl] in E1, E2. rewrite <- Sk in E2. apply str_int_inj in E2.
    unfold ord_a in E1. lia. }
  split; [|split].
  - intros r' c'.
    destruct ((0 <=? ord_a + c') && (ord_a + c' <? 1114112)); [|discriminate].
    cbn [bind app]. intros E.
    assert (E' : (ord_a + c') :: str_int (8 - r') = (ord_a + c) :: str_int (8 - r))
      by congruence.
    pose proof (f_equal (hd 0) E') as E1. pose proof (f_equal (@tl Z) E') as E2.
    cbn [hd tl] in E1, E2. apply str_int_inj in E2. lia.
  - exact G.
  - intros N. unfold parse_square.
    destruct (index _ SQUARE_NAMES) as [i|e] eqn:I.
    + apply index_In in I. tauto.
    + clear -I. revert e I. generalize SQUARE_NAMES.
      induction l as [|y l IH]; simpl; intros e I.
      * now injection I as <-.
      * destruct (str_eqb _ y); [discriminate|].
        destruct (index _ l) as [j|e'] eqn:J; simpl in I; [discriminate|].
        injection I as <-. now apply (IH e').
Qed.

(** ** Starting up, the loop and the buttons, continued *)

Section MoreProperties.
Context `{ChessLib}.
Variable w : World.

(** X2. [find_stockfish] returns only a path at which a file exists,
    and then shows nothing: the bundled copy whenever the program is
    frozen and that copy exists, whether or not there is a copy next
    to the program, else the copy next to the program.  With neither
    it shows one dialog and exits with code 1. *)
Theorem find_stockfish_search (s : GUI) :
  let bundled_sf := path_join w (MEIPASS w) (lit "stockfish.exe") in
  let local_sf := path_join w (here w) (lit "stockfish.exe") in
  (exists p,
      find_stockfish w s = (s, Ok p) /\ path_exists w p = true
      /\ p = if frozen w && path_exists w bundled_sf then bundled_sf else local_sf)
  \/ (exists title message,
        find_stockfish w s = (showerror title message s, Raise (SystemExit 1))
        /\ path_exists w local_sf = false
        /\ (frozen w = true -> path_exists w bundled_sf = false)).
Proof.
  intros bundled_sf local_sf. unfold find_stockfish.
  fold bundled_sf local_sf.
  destruct (frozen w) eqn:F; destruct (path_exists w bundled_sf) eqn:B;
    destruct (path_exists w local_sf) eqn:L; simpl;
    try (left; eexists; repeat split; assumption);
    right; do 2 eexists; repeat split; auto; discriminate.
Qed.

Lemma find_stockfish_exists (s : GUI) (p : str) :
  snd (find_stockfish w s) = Ok p -> path_exists w p = true.
Proof.
  unfold find_stockfish.
  destruct (frozen w && path_exists w _) eqn:B.
  - cbn. intros E. injection E as <-. now apply andb_true_iff in B.
  - destruct (path_exists w (path_join w (here w) _)) eqn:L; cbn; [|discriminate].
    intros E. now injection E as <-.
Qed.

Lemma fine_tick_keeps (st : GUI * bool) :
  board (fst (fine_tick w st)) = board (fst st)
  /\ selected_square (fst (fine_tick w st)) = selected_square (fst st)
  /\ running (fst (fine_tick w st)) = running (fst st)
  /\ displayed (fst (fine_tick w st)) = displayed (fst st)
  /\ destroyed (fst (fine_tick w st)) = destroyed (fst st)
  /\ dialogs (fst (fine_tick w st)) = dialogs (fst st)
  /\ STOCKFISH_PATH (fst (fine_tick w st)) = STOCKFISH_PATH (fst st)
  /\ option_map command (engine (fst (fine_tick w st)))
     = option_map command (engine (fst st))
  /\ (analysis_thread (fst st) <> None -> analysis_thread (fst (fine_tick w st)) <> None).
Proof.
  destruct st as [s passed]. unfold fine_tick. cbn [fst].
  destruct (analysis_thread s) as [[|lines seq ver|]|] eqn:T.
  - destruct passed.
    + unfold analyze_request, engine_analyse.
      destruct (engine s) as [e|] eqn:E; cbn.
      * destruct (analyse w _ _) as [infos|ex]; [destruct (pv_lines 1 infos) as [ls|ex]|];
          try destruct (is_Exception ex); cbn; rewrite ?T, ?E;
          repeat (split; [reflexivity|]); intros _; discriminate.
      * rewrite ?T, ?E. repeat (split; [reflexivity|]). auto.
    + destruct (running s) eqn:R; cbn; rewrite ?T, ?R;
        repeat (split; [reflexivity|]); intros _; discriminate.
  - unfold analyze_publish. destruct (destroyed s) eqn:D; cbn; rewrite ?T, ?D;
      repeat (split; [reflexivity|]); intros _; discriminate.
  - cbn. rewrite ?T. repeat (split; [reflexivity|]). auto.
  - cbn. repeat (split; [reflexivity|]). auto.
Qed.

(** The finer steps make up the steps of [analyze_step]. *)
Lemma fine_tick_coarse (s : GUI) :
  fine_tick w (s, false) = (analyze_step w s, false)
  \/ (fine_tick w (s, false) = (s, true)
      /\ fine_tick w (s, true) = (analyze_step w s, false)).
Proof.
  unfold fine_tick, analyze_step.
  destruct (analysis_thread s) as [[|lines seq ver|]|]; auto.
  destruct (running s); auto.
Qed.

(** X3. [__init__] returns normally exactly when [find_stockfish] finds
    a file and [popen_uci] starts it.  From then on, however far the
    analysis thread it has started has already run, the program holds
    the starting position with nothing selected, the labels drawn, no
    dialog shown, [running] set, the thread started, and the engine
    opened on the path found, which exists. *)
Theorem init_succeeds_iff :
  ((exists s, init w = (s, Ok tt))
   <-> (exists p, snd (find_stockfish w fresh) = Ok p /\ popen_uci w p = Ok tt))
  /\ forall s,
      init w = (s, Ok tt) ->
      forall n,
        board (fst (fine_run w (repeat Tick n) (s, false))) = new_board
        /\ selected_square (fst (fine_run w (repeat Tick n) (s, false))) = None
        /\ running (fst (fine_run w (repeat Tick n) (s, false))) = true
        /\ analysis_thread (fst (fine_run w (repeat Tick n) (s, false))) <> None
        /\ displayed (fst (fine_run w (repeat Tick n) (s, false))) = Some new_board
        /\ dialogs (fst (fine_run w (repeat Tick n) (s, false))) = []
        /\ exists p,
             path_exists w p = true
             /\ option_map command (engine (fst (fine_run w (repeat Tick n) (s, false))))
                = Some p
             /\ STOCKFISH_PATH (fst (fine_run w (repeat Tick n) (s, false))) = Some p.
Proof.
  assert (K : forall n st,
             board (fst (fine_run w (repeat Tick n) st)) = board (fst st)
             /\ selected_square (fst (fine_run w (repeat Tick n) st)) = selected_square (fst st)
             /\ running (fst (fine_run w (repeat Tick n) st)) = running (fst st)
             /\ displayed (fst (fine_run w (repeat Tick n) st)) = displayed (fst st)
             /\ dialogs (fst (fine_run w (repeat Tick n) st)) = dialogs (fst st)
             /\ STOCKFISH_PATH (fst (fine_run w (repeat Tick n) st)) = STOCKFISH_PATH (fst st)
             /\ option_map command (engine (fst (fine_run w (repeat Tick n) st)))
                = option_map command (engine (fst st))
             /\ (analysis_thread (fst st) <> None ->
                 analysis_thread (fst (fine_run w (repeat Tick n) st)) <> None)).
  { induction n as [|n IH]; intros st; [repeat split; auto|].
    cbn [repeat fine_run fold_left fine_step].
    destruct (IH (fine_tick w st)) as (A1 & A2 & A3 & A4 & A5 & A6 & A7 & A8).
    destruct (fine_tick_keeps st) as (B1 & B2 & B3 & B4 & _ & B5 & B6 & B7 & B8).
    unfold fine_run in *.
    repeat split; try congruence. intros N. apply A8, B8, N. }
  unfold init.
  destruct (start_engine_cases w fresh)
    as [(p & F & P & S)|[(t & m & F & S)|[(p & e & t & m & F & P & X & S)|(p & e & F & P & X & S)]]];
    rewrite S.
  - split.
    + split; intros _; [now exists p | eexists; reflexivity].
    + intros s E n. cbn in E. injection E as <-.
      match goal with
      | |- context [fine_run w (repeat Tick n) ?st] =>
          destruct (K n st) as (A1 & A2 & A3 & A4 & A5 & A6 & A7 & A8)
      end.
      split; [rewrite A1; reflexivity|]. split; [rewrite A2; reflexivity|].
      split; [rewrite A3; reflexivity|]. split; [apply A8; discriminate|].
      split; [rewrite A4; reflexivity|]. split; [rewrite A5; reflexivity|].
      exists p. split; [|split; [rewrite A7; reflexivity | rewrite A6; reflexivity]].
      now apply (find_stockfish_exists fresh).
  - split; [|discriminate].
    split; [intros (s & E); discriminate | intros (p & Fp & _); now apply F in Fp].
  - split; [|discriminate].
    split; [intros (s & E); discriminate | intros (q & Fq & Pq); congruence].
  - split; [|intros s E; congruence].
    split; [intros (s & E); congruence | intros (q & Fq & Pq); congruence].
Qed.

Ltac innermost' x :=
  lazymatch x with
  | context [match _ with _ => _ end] => fail
  | context [if _ then _ else _] => fail
  | _ => destruct x eqn:?
  end.

Ltac cases :=
  match goal with
  | |- context [match ?x with _ => _ end] => innermost' x
  | |- context [if ?x then _ else _] => innermost' x
  end.

Ltac unfold_all :=
  unfold step, square_clicked, play_move, undo_move, quit_game, root_destroy,
    update_board, analyze_step, analyze_request, analyze_publish, engine_analyse.

Lemma analyze_step_keeps (s : GUI) :
  board (analyze_step w s) = board s
  /\ selected_square (analyze_step w s) = selected_square s
  /\ running (analyze_step w s) = running s
  /\ displayed (analyze_step w s) = displayed s
  /\ destroyed (analyze_step w s) = destroyed s
  /\ dialogs (analyze_step w s) = dialogs s
  /\ STOCKFISH_PATH (analyze_step w s) = STOCKFISH_PATH s
  /\ option_map command (engine (analyze_step w s)) = option_map command (engine s).
Proof.
  unfold_all.
  destruct (engine s) as [e|] eqn:E; destruct (destroyed s) eqn:D;
    repeat (cases; simpl; rewrite ?E, ?D; simpl);
    repeat split; congruence.
Qed.

(** X4. However long it runs, the analysis thread changes nothing but
    the text box and the record of engine calls: the board, the
    selection, [running], the labels, the window, the dialogs and the
    engine's command stay as they were. *)
Theorem analyze_keeps_to_itself (fuel : nat) (s : GUI) :
  board (analyze w fuel s) = board s
  /\ selected_square (analyze w fuel s) = selected_square s
  /\ running (analyze w fuel s) = running s
  /\ displayed (analyze w fuel s) = displayed s
  /\ destroyed (analyze w fuel s) = destroyed s
  /\ dialogs (analyze w fuel s) = dialogs s
  /\ STOCKFISH_PATH (analyze w fuel s) = STOCKFISH_PATH s
  /\ option_map command (engine (analyze w fuel s)) = option_map command (engine s).
Proof.
  revert s. induction fuel as [|fuel IH]; intros s; simpl.
  - repeat split.
  - destruct (IH (analyze_step w s)) as (A1 & A2 & A3 & A4 & A5 & A6 & A7 & A8).
    destruct (analyze_step_keeps s) as (B1 & B2 & B3 & B4 & B5 & B6 & B7 & B8).
    repeat split; congruence.
Qed.

Lemma stopped_step (s : GUI) (ev : event) :
  running s = false ->
  running (step w s ev) = false
  /\ filter is_analyse (engine_calls (step w s ev)) = filter is_analyse (engine_calls s).
Proof.
  intros R. unfold engine_calls.
  destruct (engine s) as [e|] eqn:E; destruct (destroyed s) eqn:D;
    destruct ev; unfold_all; simpl; rewrite ?E, ?D, ?R;
    repeat (cases; simpl in *; rewrite ?E, ?D, ?R; simpl);
    repeat match goal with E' : Some _ = Some _ |- _ => injection E' as <- end;
    rewrite ?filter_app; simpl; rewrite ?app_nil_r; split; congruence.
Qed.

Lemma destroyed_step (s : GUI) (ev : event) :
  destroyed s = true ->
  destroyed (step w s ev) = true /\ eval_text (step w s ev) = eval_text s.
Proof.
  intros D.
  destruct (engine s) as [e|] eqn:E;
    destruct ev; unfold_all; simpl; rewrite ?E, ?D;
    repeat (cases; simpl in *; rewrite ?E, ?D; simpl);
    simpl; split; congruence.
Qed.

Lemma quit_game_fields (s : GUI) :
  running (fst (quit_game w s)) = false
  /\ analysis_thread (fst (quit_game w s)) = analysis_thread s
  /\ (snd (quit_game w s) = Ok tt -> destroyed (fst (quit_game w s)) = true).
Proof.
  unfold_all.
  destruct (engine s) as [e|] eqn:E; destruct (destroyed s) eqn:D;
    simpl; rewrite ?E, ?D;
    repeat (cases; simpl in *; rewrite ?E, ?D; simpl);
    repeat split; simpl; intros; unfold raise_ in *; congruence.
Qed.

Lemma quit_game_leaves (s : GUI) :
  filter is_analyse (engine_calls (fst (quit_game w s)))
  = filter is_analyse (engine_calls s)
  /\ eval_text (fst (quit_game w s)) = eval_text s.
Proof.
  unfold engine_calls. unfold_all.
  destruct (engine s) as [e|] eqn:E; destruct (destroyed s) eqn:Ds;
    simpl; rewrite ?E, ?Ds;
    repeat (cases; simpl in *; rewrite ?E, ?Ds; simpl);
    rewrite ?filter_app; simpl; rewrite ?app_nil_r; split; congruence.
Qed.

Lemma analyze_request_count (s : GUI) :
  running (analyze_request w s) = running s
  /\ (analyse_count (analyze_request w s) <= S (analyse_count s))%nat.
Proof.
  unfold analyse_count, engine_calls, analyze_request, engine_analyse.
  destruct (engine s) as [e|] eqn:E; cbn.
  - destruct (analyse w _ _) as [infos|ex]; [destruct (pv_lines 1 infos) as [ls|ex]|];
      try destruct (is_Exception ex); cbn;
      rewrite ?E, ?filter_app, ?length_app; cbn; split; try reflexivity; lia.
  - rewrite ?E. cbn. split; [reflexivity | lia].
Qed.

(** After [running] is cleared the thread makes one more [analyse]
    call at most: the one whose test of [running] had passed. *)
Lemma fine_stopped_step (st : GUI * bool) (ev : event) :
  running (fst st) = false ->
  running (fst (fine_step w st ev)) = false
  /\ (analyse_count (fst (fine_step w st ev))
        + (if snd (fine_step w st ev) then 1 else 0)
      <= analyse_count (fst st) + (if snd st then 1 else 0))%nat.
Proof.
  destruct st as [s passed]. cbn [fst snd]. intros R.
  assert (Hev : ev = Tick \/ ev <> Tick) by (destruct ev; auto; right; discriminate).
  destruct Hev as [->|Hev].
  - cbn [fine_step]. unfold fine_tick.
    destruct (analysis_thread s) as [[|lines seq ver|]|].
    + destruct passed.
      * destruct (analyze_request_count s) as [R' C']. cbn [fst snd].
        split; [congruence | lia].
      * rewrite R. cbn. split; [exact R|]. unfold analyse_count, engine_calls. cbn. lia.
    + unfold analyze_publish, analyse_count, engine_calls.
      destruct (destroyed s); cbn; (split; [exact R|]); destruct passed; lia.
    + cbn. split; [exact R | lia].
    + cbn. split; [exact R | lia].
  - destruct (stopped_step s ev R) as [R' F'].
    replace (fine_step w (s, passed) ev) with (step w s ev, passed)
      by (destruct ev; try reflexivity; congruence).
    cbn [fst snd]. split; [exact R'|]. unfold analyse_count. rewrite F'. lia.
Qed.

Lemma fine_stopped_run (evs : list event) (st : GUI * bool) :
  running (fst st) = false ->
  running (fst (fine_run w evs st)) = false
  /\ (analyse_count (fst (fine_run w evs st))
      <= analyse_count (fst st) + (if snd st then 1 else 0))%nat.
Proof.
  revert st. induction evs as [|ev evs IH]; intros st R; cbn [fine_run fold_left].
  - split; [exact R | lia].
  - destruct (fine_stopped_step st ev R) as [R' C'].
    destruct (IH _ R') as [R'' C'']. unfold fine_run in *.
    split; [exact R''|]. destruct (snd (fine_step w st ev)); lia.
Qed.

Lemma fine_destroyed_run (evs : list event) (st : GUI * bool) :
  destroyed (fst st) = true ->
  eval_text (fst (fine_run w evs st)) = eval_text (fst st).
Proof.
  revert st. induction evs as [|ev evs IH]; intros [s passed] D; [reflexivity|].
  cbn [fine_run fold_left]. cbn [fst] in D.
  assert (K : destroyed (fst (fine_step w (s, passed) ev)) = true
              /\ eval_text (fst (fine_step w (s, passed) ev)) = eval_text s).
  { assert (Hev : ev = Tick \/ ev <> Tick) by (destruct ev; auto; right; discriminate).
    destruct Hev as [->|Hev].
    - destruct (fine_tick_keeps (s, passed)) as (_ & _ & _ & _ & Dk & _).
      cbn [fine_step]. split; [cbn [fst] in Dk; congruence|].
      unfold fine_tick.
      destruct (analysis_thread s) as [[|lines seq ver|]|]; cbn [fst]; try reflexivity.
      + destruct passed; [|destruct (running s); reflexivity].
        unfold analyze_request, engine_analyse.
        destruct (engine s) as [e|]; cbn; [|reflexivity].
        destruct (analyse w _ _) as [infos|ex]; [destruct (pv_lines 1 infos) as [ls|ex]|];
          try destruct (is_Exception ex); reflexivity.
      + unfold analyze_publish. now rewrite D.
    - replace (fine_step w (s, passed) ev) with (step w s ev, passed)
        by (destruct ev; try reflexivity; congruence).
      exact (destroyed_step s ev D). }
  destruct K as [D' E']. unfold fine_run in IH. rewrite (IH _ D'). exact E'.
Qed.

Lemma fine_tick_finished (s : GUI) (b : bool) :
  analysis_thread s = Some Finished -> fine_tick w (s, b) = (s, b).
Proof. intros T. unfold fine_tick. now rewrite T. Qed.

Lemma fine_tick_stopped_head (s : GUI) :
  running s = false -> analysis_thread s = Some LoopHead ->
  fine_tick w (s, false) = (set_thread (Some Finished) s, false).
Proof. intros R T. unfold fine_tick. now rewrite T, R. Qed.

Lemma fine_tick_sleeping (s : GUI) (b : bool) (lines : list str) (seq ver : nat) :
  analysis_thread s = Some (Sleeping lines seq ver) ->
  fine_tick w (s, b) = (analyze_publish lines seq ver s, false)
  /\ running (analyze_publish lines seq ver s) = running s
  /\ analysis_thread (analyze_publish lines seq ver s) = Some LoopHead.
Proof.
  intros T. unfold fine_tick. rewrite T. split; [reflexivity|].
  unfold analyze_publish. destruct (destroyed s); now split.
Qed.

Lemma analyze_request_thread (s : GUI) :
  analysis_thread s = Some LoopHead ->
  analysis_thread (analyze_request w s) = Some LoopHead
  \/ analysis_thread (analyze_request w s) = Some Finished
  \/ exists lines seq ver,
       analysis_thread (analyze_request w s) = Some (Sleeping lines seq ver).
Proof.
  intros T. unfold analyze_request, engine_analyse.
  destruct (engine s) as [e|]; cbn; [|now left].
  destruct (analyse w _ _) as [infos|ex]; [destruct (pv_lines 1 infos) as [ls|ex]|];
    try destruct (is_Exception ex); cbn; rewrite ?T; eauto 6.
Qed.

Lemma fine_stopped_thread_ends (s : GUI) (passed : bool) (t : Thread) :
  running s = false -> analysis_thread s = Some t ->
  analysis_thread (fst (fine_run w [Tick; Tick; Tick] (s, passed))) = Some Finished.
Proof.
  intros R T. cbn [fine_run fold_left fine_step].
  assert (From_head : forall s', running s' = false ->
                                 analysis_thread s' = Some LoopHead ->
                                 analysis_thread (fst (fine_tick w (s', false)))
                                 = Some Finished
                                 /\ analysis_thread
                                      (fst (fine_tick w (fine_tick w (s', false))))
                                    = Some Finished).
  { intros s' R' T'. rewrite (fine_tick_stopped_head s' R' T').
    rewrite fine_tick_finished by reflexivity. now split. }
  destruct t as [|lines seq ver|].
  - destruct passed.
    + assert (E1 : fine_tick w (s, true) = (analyze_request w s, false)).
      { unfold fine_tick. now rewrite T. }
      rewrite E1.
      destruct (analyze_request_count s) as [Rq _]. rewrite R in Rq.
      destruct (analyze_request_thread s T) as [Tq|[Tq|(l & q & v & Tq)]].
      * now apply From_head.
      * now rewrite !fine_tick_finished.
      * destruct (fine_tick_sleeping _ false l q v Tq) as (-> & Rp & Tp).
        apply From_head; congruence.
    + destruct (From_head s R T) as [_ F2].
      rewrite (fine_tick_stopped_head s R T) in *.
      now rewrite !fine_tick_finished.
  - destruct (fine_tick_sleeping s passed lines seq ver T) as (-> & Rp & Tp).
    apply From_head; congruence.
  - now rewrite !fine_tick_finished.
Qed.

(** X5. [quit_game] stops the loop, whether or not it completes, and
    wherever the thread is, even between its test of [running] and
    the call that follows.  From then on, whatever is clicked,
    [running] stays cleared and at most one more [analyse] call is
    made, and none unless the test had already passed; left to itself
    the thread ends within three of its steps; and once the window is
    destroyed the text box is never written again. *)
Theorem loop_stops_after_quit (s : GUI) (passed : bool) :
  (forall evs,
      running (fst (fine_run w evs (fst (quit_game w s), passed))) = false
      /\ (analyse_count (fst (fine_run w evs (fst (quit_game w s), passed)))
          <= analyse_count s + (if passed then 1 else 0))%nat)
  /\ (forall t,
        analysis_thread s = Some t ->
        analysis_thread
          (fst (fine_run w [Tick; Tick; Tick] (fst (quit_game w s), passed)))
        = Some Finished)
  /\ (snd (quit_game w s) = Ok tt ->
      forall evs,
        eval_text (fst (fine_run w evs (fst (quit_game w s), passed))) = eval_text s).
Proof.
  destruct (quit_game_fields s) as (R & T & D).
  destruct (quit_game_leaves s) as (Q & E).
  split; [|split].
  - intros evs.
    destruct (fine_stopped_run evs (fst (quit_game w s), passed) R) as [R' C'].
    split; [exact R'|]. cbn [fst snd] in C'. unfold analyse_count in *.
    rewrite Q in C'. exact C'.
  - intros t Ht. apply (fine_stopped_thread_ends _ passed t R). congruence.
  - intros Ok' evs.
    rewrite (fine_destroyed_run evs (fst (quit_game w s), passed) (D Ok')). exact E.
Qed.

Lemma eval_str_total (sc : Score) : exists text, eval_str sc = Ok text.
Proof. destruct sc; simpl; eexists; reflexivity. Qed.

Lemma pv_lines_from (infos : list InfoDict) (idx : Z) :
  if forallb has_score infos then
    exists lines,
      pv_lines idx infos = Ok lines
      /\ List.length lines = List.length infos
      /\ forall k line,
           nth_error lines k = Some line ->
           exists rest, line = lit "PV" ++ str_int (idx + Z.of_nat k) ++ lit ": " ++ rest
  else pv_lines idx infos = Raise (Error KeyError []).
Proof.
  revert idx. induction infos as [|info infos IH]; intros idx; simpl.
  - exists []. repeat split. intros [|k] line; discriminate.
  - unfold has_score at 1, pv_line. destruct (info_score info) as [ps|]; simpl.
    + destruct (eval_str_total (white ps)) as [text ->]. cbn [bind].
      specialize (IH (idx + 1)). destruct (forallb has_score infos).
      * destruct IH as (lines & -> & L & N). cbn [bind].
        eexists. split; [reflexivity|]. split; [simpl; now rewrite L|].
        intros [|k] line E; simpl in E.
        -- injection E as <-. rewrite Z.add_0_r. eexists. reflexivity.
        -- destruct (N k line E) as [rest ->]. exists rest.
           now replace (idx + 1 + Z.of_nat k) with (idx + Z.of_nat (S k)) by lia.
      * now rewrite IH.
    + reflexivity.
Qed.

(** X6. The lines built from an engine answer: when every entry has a
    score there are as many lines as entries, the [k]-th (from 0)
    beginning with [PV], the number [k + 1] and a colon; when some
    entry lacks its score the whole answer gives [KeyError] and no
    line at all (never any other error). *)
Theorem pv_lines_shape (infos : list InfoDict) :
  if forallb has_score infos then
    exists lines,
      pv_lines 1 infos = Ok lines
      /\ List.length lines = List.length infos
      /\ forall k line,
           nth_error lines k = Some line ->
           exists rest, line = lit "PV" ++ str_int (1 + Z.of_nat k) ++ lit ": " ++ rest
  else pv_lines 1 infos = Raise (Error KeyError []).
Proof. apply pv_lines_from. Qed.

(** X7. One turn of the loop, left alone with the window open: when
    the engine answers and every entry has a score, two steps later
    the text box holds exactly the lines of that answer joined by
    newlines; when an entry lacks its score nothing is shown, the text
    box keeps what it had, and the thread is back at the head of the
    loop. *)
Theorem analysis_cycle (s : GUI) (e : SimpleEngine) (infos : list InfoDict) :
  analysis_thread s = Some LoopHead -> running s = true -> engine s = Some e ->
  destroyed s = false ->
  analyse w (List.length (calls e)) (board s) = Ok infos ->
  match pv_lines 1 infos with
  | Ok lines =>
      eval_text (analyze w 2 s) = join [10] lines
      /\ analysis_thread (analyze w 2 s) = Some LoopHead
  | Raise _ =>
      eval_text (analyze w 1 s) = eval_text s
      /\ analysis_thread (analyze w 1 s) = Some LoopHead
  end.
Proof.
  intros T R E D A.
  pose proof (pv_lines_from infos 1) as P.
  set (s1 := set_engine (Some (called e (CallAnalyse (board s) 12 3))) s).
  assert (S1 : analyze_step w s
               = match pv_lines 1 infos with
                 | Ok lines =>
                     set_thread
                       (Some (Sleeping lines (List.length (calls e)) (version s))) s1
                 | Raise ex =>
                     if is_Exception ex then s1 else set_thread (Some Finished) s1
                 end).
  { unfold analyze_step, analyze_request, engine_analyse. now rewrite T, R, E, A. }
  cbn [analyze]. rewrite S1.
  destruct (pv_lines 1 infos) as [lines|ex] eqn:L.
  - unfold analyze_step, analyze_publish. cbn. rewrite D. now split.
  - assert (X : is_Exception ex = true).
    { destruct (forallb has_score infos).
      - destruct P as (lines & P & _). discriminate.
      - now injection P as ->. }
    rewrite X. cbn. now split.
Qed.

(** X8. A mate score is shown as [Mate in n] with [n] counted from
    White's side: the engine's distance when White is to move, its
    negation when Black is to move; a mate already on the board is
    [Mate in 0] for either side. *)
Theorem mate_white_pov (idx : Z) (info : InfoDict) (ps : PovScore) :
  info_score info = Some ps -> is_mate (relative ps) = true ->
  exists n,
    mate (relative ps) = Some n
    /\ pv_line idx info
       = Ok (lit "PV" ++ str_int idx ++ lit ": " ++ lit "Mate in "
             ++ str_int (match turn ps with WHITE => n | BLACK => - n end)
             ++ lit " | "
             ++ join (lit " ")
                  (map uci match info_pv info with Some pv => pv | None => [] end)).
Proof.
  intros S M. unfold pv_line, eval_str, white, pov. rewrite S.
  destruct (relative ps) as [cp|n|]; [discriminate| |].
  - exists n. split; [reflexivity|].
    destruct (turn ps); simpl; [reflexivity|].
    destruct (n =? 0) eqn:Z0; simpl; [|reflexivity].
    apply Z.eqb_eq in Z0. subst n. reflexivity.
  - exists 0. split; [reflexivity|]. destruct (turn ps); reflexivity.
Qed.

(** X9. A click on a cell of the grid while nothing is selected never
    changes the board: it selects the cell's square when a piece
    stands on it, the square being number [(7 - r) * 8 + c] (row 0 is
    the eighth rank), and otherwise does nothing but redraw.  With the
    window open it does not raise. *)
Theorem first_click_selects (r c : Z) (s : GUI) :
  0 <= r <= 7 -> 0 <= c <= 7 -> selected s = None ->
  board (fst (square_clicked r c s)) = board s
  /\ selected_square (fst (square_clicked r c s))
     = (if piece_at (move_stack (board s)) ((7 - r) * 8 + c)
        then Some [97 + c; 56 - r] else selected_square s)
  /\ (destroyed s = false -> snd (square_clicked r c s) = Ok tt).
Proof.
  intros Hr Hc N. unfold square_clicked.
  rewrite (square_to_uci_value r c Hr Hc), N, (parse_square_grid r c Hr Hc).
  rewrite update_board_board, update_board_selected.
  destruct (piece_at (move_stack (board s)) ((7 - r) * 8 + c));
    (split; [reflexivity|]); (split; [reflexivity|]);
    intros D; unfold update_board; simpl; now rewrite D.
Qed.

Lemma pop_push (b : Board) (m : Move) : pop (push b m) = Ok b.
Proof.
  unfold pop, push. cbn [move_stack].
  destruct (move_stack b ++ [m]) eqn:E.
  - now destruct (move_stack b).
  - rewrite <- E, removelast_last. now destruct b.
Qed.

Lemma undo_after_push (s : GUI) (b : Board) (m : Move) :
  board s = push b m -> board (fst (undo_move s)) = b.
Proof.
  intros E. unfold undo_move. rewrite E, pop_push.
  unfold push. cbn [move_stack]. rewrite length_app, Nat.add_comm. cbn.
  now rewrite update_board_board.
Qed.

Lemma play_move_board (s : GUI) :
  board (fst (play_move w s)) = board s
  \/ exists m, board (fst (play_move w s)) = push (board s) m.
Proof.
  unfold_all.
  destruct (engine s) as [e|] eqn:E; destruct (destroyed s) eqn:D;
    simpl; rewrite ?E, ?D;
    repeat (cases; simpl in *; rewrite ?E, ?D; simpl); simpl; eauto.
Qed.

(** X10. Undo takes back a move however it was made: after a click or
    a press on Play that changed the board, [undo_move] gives the
    board as it was before. *)
Theorem undo_restores (s : GUI) (ev : event) :
  (ev = PlayButton \/ exists r c, ev = Click r c) ->
  board (step w s ev) <> board s ->
  board (fst (undo_move (step w s ev))) = board s.
Proof.
  intros [->|(r & c & ->)] Hb; simpl in *.
  - destruct (play_move_board s) as [E|[m E]]; [contradiction|].
    now apply (undo_after_push _ _ m).
  - destruct (square_clicked_board r c s) as [E|(m & _ & E)]; [contradiction|].
    now apply (undo_after_push _ _ m).
Qed.

Lemma legal_board_pop (b b' : Board) :
  legal_board b -> pop b = Ok b' -> legal_board b'.
Proof.
  intros L P. destruct L as [|b0 m L0 _].
  - discriminate.
  - rewrite pop_push in P. now injection P as <-.
Qed.

(** X11. Undo keeps the board legal: through any mix of clicks and
    presses on Undo, the board stays a position reached from the start
    by legal moves. *)
Theorem clicks_and_undo_legal (evs : list event) (s : GUI) :
  legal_board (board s) -> Forall click_or_undo evs ->
  legal_board (board (run w evs s)).
Proof.
  revert s. induction evs as [|ev evs IH]; intros s L F; [exact L|].
  simpl. apply IH; [|now inversion F].
  inversion F as [|? ? Hev _]; subst. destruct ev; try contradiction; simpl.
  - destruct (square_clicked_board r c s) as [->|(m & Lm & ->)];
      [exact L | now apply legal_push].
  - unfold undo_move. destruct (0 <? _); [|exact L].
    destruct (pop (board s)) as [b'|e] eqn:P; [|exact L].
    rewrite update_board_board. simpl. now apply (legal_board_pop (board s)).
Qed.

(** X12. Play asks the engine once, with depth 15, for the board as it
    is.  The move answered is pushed without asking whether it is
    legal, and with the window open the labels are redrawn and nothing
    else is shown; when the engine fails the board is left alone and
    the failure is shown in one dialog titled Error, carrying its
    text; the exception itself does not leave the handler. *)
Theorem play_move_outcomes (s : GUI) (e : SimpleEngine) :
  engine s = Some e ->
  engine_calls (fst (play_move w s)) = calls e ++ [CallPlay (board s) 15]
  /\ match play w (List.length (calls e)) (board s) with
     | Ok m =>
         board (fst (play_move w s)) = push (board s) m
         /\ (destroyed s = false ->
             snd (play_move w s) = Ok tt
             /\ displayed (fst (play_move w s)) = Some (push (board s) m)
             /\ dialogs (fst (play_move w s)) = dialogs s)
     | Raise ex =>
         board (fst (play_move w s)) = board s
         /\ (is_Exception ex = true ->
             snd (play_move w s) = Ok tt
             /\ dialogs (fst (play_move w s)) = dialogs s ++ [(lit "Error", exn_str ex)])
     end.
Proof.
  intros E. unfold engine_calls, play_move, update_board. rewrite E.
  destruct (play w (List.length (calls e)) (board s)) as [m|ex].
  - cbn. destruct (destroyed s) eqn:D; cbn; repeat split; try discriminate.
  - destruct (is_Exception ex) eqn:X; cbn; repeat split; try discriminate.
Qed.

(** X13. With the window open, [quit_game] destroys it exactly when it
    completes; it always clears [running]; and when it raises, the
    exception is the one the engine's [quit] raised, [root.destroy()]
    was never reached and the window is still there. *)
Theorem quit_game_window (s : GUI) :
  destroyed s = false ->
  running (fst (quit_game w s)) = false
  /\ (snd (quit_game w s) = Ok tt <-> destroyed (fst (quit_game w s)) = true)
  /\ forall ex,
       snd (quit_game w s) = Raise ex ->
       exists e,
         engine s = Some e /\ quit w (List.length (calls e)) = Raise ex
         /\ quit_game w s
            = (set_engine (Some (called e CallQuit)) (set_running false s), Raise ex).
Proof.
  intros D. unfold quit_game, root_destroy. cbn [engine set_running].
  destruct (engine s) as [e|] eqn:E.
  - destruct (quit w (List.length (calls e))) as [[]|ex0] eqn:Q; cbn; rewrite D; cbn.
    + repeat split; discriminate.
    + split; [reflexivity|]. split; [split; [discriminate | congruence]|].
      intros ex X. injection X as <-. exists e.
      split; [reflexivity|]. split; [exact Q | reflexivity].
  - cbn. rewrite D. cbn. repeat split; discriminate.
Qed.

Lemma shown_step (s : GUI) (ev : event) :
  (destroyed s = false -> displayed s = Some (board s)) ->
  destroyed (step w s ev) = false ->
  displayed (step w s ev) = Some (board (step w s ev)).
Proof.
  intros I D'.
  destruct (destroyed s) eqn:D.
  { destruct (destroyed_step s ev D) as [X _]. congruence. }
  specialize (I eq_refl). revert D'.
  destruct (engine s) as [e|] eqn:E;
    destruct ev; unfold_all; simpl; rewrite ?E, ?D;
    repeat (cases; simpl in *; rewrite ?E, ?D; simpl);
    simpl; intros; congruence.
Qed.

(** X19. As long as the window exists, the labels show the current
    board: after [__init__] and after every handler, in any run, the
    board last drawn by [update_board] is [self.board]. *)
Theorem board_always_shown (s0 : GUI) (evs : list event) :
  init w = (s0, Ok tt) ->
  destroyed (run w evs s0) = false ->
  displayed (run w evs s0) = Some (board (run w evs s0)).
Proof.
  intros I0.
  assert (Inv0 : destroyed s0 = false -> displayed s0 = Some (board s0)).
  { unfold init in I0.
    destruct (start_engine_cases w fresh)
      as [(p & _ & _ & S)|[(t & m & _ & S)|[(p & e & t & m & _ & _ & _ & S)|(p & e & _ & _ & _ & S)]]];
      rewrite S in I0; try discriminate.
    cbn in I0. injection I0 as <-. reflexivity. }
  clear I0. revert s0 Inv0.
  induction evs as [|ev evs IH]; intros s0 Inv0; [exact Inv0|].
  simpl. apply IH. now apply shown_step.
Qed.

Lemma selected_step (s : GUI) (ev : event) :
  (forall name, selected_square s = Some name -> In name SQUARE_NAMES) ->
  forall name, selected_square (step w s ev) = Some name -> In name SQUARE_NAMES.
Proof.
  intros I name.
  destruct ev as [r c| | | |].
  - simpl. unfold square_clicked.
    destruct (square_to_uci r c) as [square|]; [|apply I].
    destruct (selected s) as [sel|].
    + destruct (from_uci (sel ++ square)); [|apply I].
      rewrite update_board_selected. discriminate.
    + destruct (parse_square square) as [sq|] eqn:P; [|apply I].
      rewrite update_board_selected.
      destruct (piece_at (move_stack (board s)) sq); [|apply I].
      cbn. intros E. injection E as <-. unfold parse_square in P.
      now apply index_In in P.
  - replace (selected_square (step w s PlayButton)) with (selected_square s); [apply I|].
    destruct (engine s) as [e|] eqn:E; destruct (destroyed s) eqn:D;
      unfold_all; simpl; rewrite ?E, ?D;
      repeat (cases; simpl in *; rewrite ?E, ?D; simpl); reflexivity.
  - replace (selected_square (step w s UndoButton)) with (selected_square s); [apply I|].
    destruct (destroyed s) eqn:D;
      unfold_all; simpl; rewrite ?D;
      repeat (cases; simpl in *; rewrite ?D; simpl); reflexivity.
  - replace (selected_square (step w s QuitButton)) with (selected_square s); [apply I|].
    destruct (engine s) as [e|] eqn:E; destruct (destroyed s) eqn:D;
      unfold_all; simpl; rewrite ?E, ?D;
      repeat (cases; simpl in *; rewrite ?E, ?D; simpl); reflexivity.
  - simpl. destruct (analyze_step_keeps s) as (_ & -> & _). apply I.
Qed.

(** X20. Whatever is clicked, at any row and column, the selection is
    either empty or one of the 64 square names: the text handed to
    [Move.from_uci] on the second click always begins with a real
    square. *)
Theorem selection_is_a_square (s0 : GUI) (evs : list event) (name : str) :
  init w = (s0, Ok tt) ->
  selected_square (run w evs s0) = Some name -> In name SQUARE_NAMES.
Proof.
  intros I0.
  assert (Inv0 : forall n, selected_square s0 = Some n -> In n SQUARE_NAMES).
  { unfold init in I0.
    destruct (start_engine_cases w fresh)
      as [(p & _ & _ & S)|[(t & m & _ & S)|[(p & e & t & m & _ & _ & _ & S)|(p & e & _ & _ & _ & S)]]];
      rewrite S in I0; try discriminate.
    cbn in I0. injection I0 as <-. cbn. discriminate. }
  clear I0. revert s0 Inv0 name.
  induction evs as [|ev evs IH]; intros s0 Inv0 name; [apply Inv0|].
  simpl. apply IH. now apply selected_step.
Qed.

End MoreProperties.

(** ** The labels of the board *)

Module WidgetProperties.
Import Widgets.

Lemma key_eqb_eq (a b : Z * Z) : key_eqb a b = true <-> a = b.
Proof.
  unfold key_eqb. destruct a as [a1 a2], b as [b1 b2]. simpl.
  rewrite andb_true_iff, !Z.eqb_eq. split; [intros [-> ->]; reflexivity|].
  intros E. injection E as -> ->. now split.
Qed.

Lemma key_eqb_refl (a : Z * Z) : key_eqb a a = true.
Proof. now apply key_eqb_eq. Qed.

Lemma key_eqb_sym (a b : Z * Z) : key_eqb a b = key_eqb b a.
Proof. unfold key_eqb. now rewrite (Z.eqb_sym (fst a)), (Z.eqb_sym (snd a)). Qed.

Lemma get_set_item (k k' : Z * Z) (v : Label) (d : dict) :
  get k d <> None ->
  get k' (set_item k v d) = if key_eqb k' k then Some v else get k' d.
Proof.
  induction d as [|[k0 v0] d IH]; simpl; intros P; [congruence|].
  destruct (key_eqb k k0) eqn:E; simpl.
  - apply key_eqb_eq in E. subst k0. now destruct (key_eqb k' k).
  - destruct (key_eqb k' k0) eqn:E'.
    + apply key_eqb_eq in E'. subst k0.
      rewrite key_eqb_sym in E. now rewrite E.
    + now apply IH.
Qed.

Lemma config_text_overlay (k : Z * Z) (t : str) (d : dict) :
  get k d <> None ->
  exists d', config_text k t d = Ok d'
             /\ overlay (fun k' => if key_eqb k' k then Some t else None) d d'.
Proof.
  intros P. unfold config_text. destruct (get k d) as [l|] eqn:G; [|congruence].
  eexists. split; [reflexivity|]. intros k'.
  rewrite get_set_item by congruence.
  destruct (key_eqb k' k) eqn:E; [|reflexivity].
  apply key_eqb_eq in E. subst k'. now rewrite G.
Qed.

Lemma with_text_twice (t t' : str) (l : Label) :
  with_text t (with_text t' l) = with_text t l.
Proof. reflexivity. Qed.

Lemma overlay_refl (d : dict) : overlay (fun _ => None) d d.
Proof. now intros k. Qed.

Lemma overlay_trans (f g : Z * Z -> option str) (a b c : dict) :
  overlay f a b -> overlay g b c ->
  overlay (fun k => match g k with Some t => Some t | None => f k end) a c.
Proof.
  intros F G k. rewrite (G k), (F k).
  destruct (g k) as [t|]; [|reflexivity].
  destruct (f k) as [t'|]; [|reflexivity].
  now destruct (get k a).
Qed.

Lemma overlay_ext (f g : Z * Z -> option str) (a b : dict) :
  (forall k, f k = g k) -> overlay f a b -> overlay g a b.
Proof. intros E F k. rewrite <- E. apply F. Qed.

Lemma overlay_present (f : Z * Z -> option str) (a b : dict) (k : Z * Z) :
  overlay f a b -> get k a <> None -> get k b <> None.
Proof.
  intros F P. rewrite (F k). destruct (f k); [|exact P].
  now destruct (get k a).
Qed.

Lemma row_texts_app (r c0 : Z) (ts1 ts2 : list str) (k : Z * Z) :
  match row_texts r (c0 + Z.of_nat (List.length ts1)) ts2 k with
  | Some t => Some t
  | None => row_texts r c0 ts1 k
  end = row_texts r c0 (ts1 ++ ts2) k.
Proof.
  unfold row_texts. rewrite length_app, Nat2Z.inj_add.
  destruct (fst k =? r); simpl; [|reflexivity].
  destruct (c0 + Z.of_nat (List.length ts1) <=? snd k) eqn:A; simpl.
  - apply Z.leb_le in A.
    replace (c0 <=? snd k) with true by (symmetry; apply Z.leb_le; lia). simpl.
    replace (snd k <? c0 + Z.of_nat (List.length ts1)) with false
      by (symmetry; apply Z.ltb_ge; lia).
    replace (snd k <? c0 + Z.of_nat (List.length ts1) + Z.of_nat (List.length ts2))
      with (snd k <? c0 + (Z.of_nat (List.length ts1) + Z.of_nat (List.length ts2)))
      by (f_equal; lia).
    destruct (snd k <? c0 + (Z.of_nat (List.length ts1) + Z.of_nat (List.length ts2)));
      [|reflexivity].
    rewrite nth_error_app2 by lia.
    replace (Z.to_nat (snd k - c0) - List.length ts1)%nat
      with (Z.to_nat (snd k - (c0 + Z.of_nat (List.length ts1)))) by lia.
    now destruct (nth_error ts2 _).
  - apply Z.leb_gt in A.
    destruct (c0 <=? snd k) eqn:B; simpl; [|reflexivity].
    apply Z.leb_le in B.
    replace (snd k <? c0 + Z.of_nat (List.length ts1)) with true
      by (symmetry; apply Z.ltb_lt; lia).
    replace (snd k <? c0 + (Z.of_nat (List.length ts1) + Z.of_nat (List.length ts2)))
      with true by (symmetry; apply Z.ltb_lt; lia).
    rewrite nth_error_app1 by lia. reflexivity.
Qed.

Lemma row_texts_single (r c : Z) (t : str) (k : Z * Z) :
  (if key_eqb k (r, c) then Some t else None) = row_texts r c [t] k.
Proof.
  unfold key_eqb, row_texts. simpl.
  destruct (fst k =? r); simpl; [|reflexivity].
  destruct (snd k =? c) eqn:E.
  - apply Z.eqb_eq in E. rewrite E, Z.leb_refl. simpl.
    replace (c <? c + 1) with true by (symmetry; apply Z.ltb_lt; lia).
    now rewrite Z.sub_diag.
  - apply Z.eqb_neq in E.
    destruct (c <=? snd k) eqn:A; simpl; [|reflexivity].
    apply Z.leb_le in A.
    now replace (snd k <? c + 1) with false by (symmetry; apply Z.ltb_ge; lia).
Qed.

Lemma draw_blanks_overlay (n : nat) (r c : Z) (squares : dict) :
  (forall j, 0 <= j < Z.of_nat n -> get (r, c + j) squares <> None) ->
  exists squares',
    draw_blanks n r c squares = (squares', Ok (c + Z.of_nat n))
    /\ overlay (row_texts r c (repeat (lit " ") n)) squares squares'.
Proof.
  revert c squares. induction n as [|n IH]; intros c squares P.
  - exists squares. split; [simpl; f_equal; f_equal; lia|].
    apply (overlay_ext (fun _ => None)); [|apply overlay_refl].
    intros k. unfold row_texts. simpl.
    destruct (fst k =? r); simpl; [|reflexivity].
    destruct (c <=? snd k) eqn:A; simpl; [|reflexivity].
    apply Z.leb_le in A.
    now replace (snd k <? c + 0) with false by (symmetry; apply Z.ltb_ge; lia).
  - cbn [draw_blanks].
    destruct (config_text_overlay (r, c) (lit " ") squares) as (d1 & -> & O1).
    { specialize (P 0). rewrite Z.add_0_r in P. apply P. lia. }
    destruct (IH (c + 1) d1) as (d2 & -> & O2).
    { intros j Hj. apply (overlay_present _ _ _ _ O1).
      replace (c + 1 + j) with (c + (1 + j)) by lia. apply P. lia. }
    exists d2. split; [f_equal; f_equal; lia|].
    eapply overlay_ext; [|exact (overlay_trans _ _ _ _ _ O1 O2)].
    intros k. cbn beta. rewrite (row_texts_single r c (lit " ") k).
    change (repeat (lit " ") (S n)) with ([lit " "] ++ repeat (lit " ") n).
    rewrite <- row_texts_app. reflexivity.
Qed.

Lemma str_int_digit (e : Z) : 0 <= e <= 9 -> str_int e = [48 + e].
Proof.
  intros He.
  assert (E : e = 0 \/ e = 1 \/ e = 2 \/ e = 3 \/ e = 4 \/ e = 5 \/ e = 6
              \/ e = 7 \/ e = 8 \/ e = 9) by lia.
  repeat (destruct E as [->|E]; [reflexivity|]). subst e. reflexivity.
Qed.

Lemma draw_row_flush (U : Unicode) (r : Z) (e : Z) (tail : str) (c : Z) (squares : dict) :
  0 <= e <= 9 ->
  draw_row U r ((if e =? 0 then [] else str_int e) ++ tail) c squares
  = match draw_blanks (Z.to_nat e) r c squares with
    | (squares', Raise x) => (squares', Raise x)
    | (squares', Ok c') => draw_row U r tail c' squares'
    end.
Proof.
  intros He.
  assert (E : e = 0 \/ e = 1 \/ e = 2 \/ e = 3 \/ e = 4 \/ e = 5 \/ e = 6
              \/ e = 7 \/ e = 8 \/ e = 9) by lia.
  repeat (destruct E as [->|E]; [reflexivity|]). subst e. reflexivity.
Qed.

Lemma piece_letter_not_digit (U : Unicode) (ch : Z) :
  In ch piece_letters -> isdigit U ch = false /\ ch <> 47.
Proof.
  intros Hc. simpl in Hc.
  repeat (destruct Hc as [<-|Hc]; [split; [reflexivity | discriminate]|]).
  contradiction.
Qed.

Lemma draw_row_encoded (U : Unicode) (r : Z) (cells : list (option Z)) :
  forall (e c0 : Z) (squares : dict),
    0 <= e -> e + Z.of_nat (List.length cells) <= 9 ->
    (forall ch, In (Some ch) cells -> In ch piece_letters) ->
    (forall j, 0 <= j < e + Z.of_nat (List.length cells) ->
               get (r, c0 + j) squares <> None) ->
    exists squares',
      draw_row U r (encode_cells cells e) c0 squares
      = (squares', Ok (c0 + e + Z.of_nat (List.length cells)))
      /\ overlay (row_texts r c0 (repeat (lit " ") (Z.to_nat e) ++ map cell_text cells))
           squares squares'.
Proof.
  induction cells as [|cell cells IH]; intros e c0 squares He Hl Hs P.
  - cbn [encode_cells]. simpl in Hl.
    match goal with
    | |- context [draw_row U r ?x c0 squares] => rewrite <- (app_nil_r x)
    end.
    rewrite draw_row_flush by lia.
    destruct (draw_blanks_overlay (Z.to_nat e) r c0 squares) as (d1 & -> & O1).
    { intros j Hj. apply P. simpl. lia. }
    exists d1. cbn [draw_row]. split; [f_equal; f_equal; simpl; lia|].
    cbn [map]. now rewrite app_nil_r.
  - cbn [List.length] in Hl, P. rewrite Nat2Z.inj_succ in Hl, P.
    destruct cell as [ch|]; cbn [encode_cells].
    + rewrite draw_row_flush by lia.
      destruct (draw_blanks_overlay (Z.to_nat e) r c0 squares) as (d1 & -> & O1).
      { intros j Hj. apply P. lia. }
      cbn [draw_row].
      destruct (piece_letter_not_digit U ch) as [-> _]; [apply Hs; now left|].
      destruct (config_text_overlay (r, c0 + Z.of_nat (Z.to_nat e))
                  (get_piece_symbol [ch]) d1) as (d2 & -> & O2).
      { apply (overlay_present _ _ _ _ O1). apply P. lia. }
      destruct (IH 0 (c0 + Z.of_nat (Z.to_nat e) + 1) d2) as (d3 & -> & O3);
        try lia.
      { intros ch' Hc. apply Hs. now right. }
      { intros j Hj. apply (overlay_present _ _ _ _ O2).
        apply (overlay_present _ _ _ _ O1).
        replace (c0 + Z.of_nat (Z.to_nat e) + 1 + j) with (c0 + (e + 1 + j)) by lia.
        apply P. lia. }
      exists d3. split; [f_equal; f_equal; cbn [List.length]; lia|].
      eapply overlay_ext;
        [|exact (overlay_trans _ _ _ _ _ (overlay_trans _ _ _ _ _ O1 O2) O3)].
      intros k. cbn beta. cbn [Z.to_nat repeat app map cell_text].
      rewrite (row_texts_single r _ (get_piece_symbol [ch]) k).
      replace (c0 + Z.of_nat (Z.to_nat e))
        with (c0 + Z.of_nat (List.length (repeat (lit " ") (Z.to_nat e))))
        by (now rewrite repeat_length).
      rewrite row_texts_app.
      replace (c0 + Z.of_nat (List.length (repeat (lit " ") (Z.to_nat e))) + 1)
        with (c0 + Z.of_nat (List.length
                               (repeat (lit " ") (Z.to_nat e) ++ [get_piece_symbol [ch]])))
        by (rewrite length_app; cbn [List.length]; lia).
      rewrite row_texts_app, <- app_assoc. reflexivity.
    + destruct (IH (e + 1) c0 squares) as (d1 & -> & O1); try lia.
      { intros ch' Hc. apply Hs. now right. }
      { intros j Hj. apply P. lia. }
      exists d1. split; [f_equal; f_equal; cbn [List.length]; lia|].
      eapply overlay_ext; [|exact O1].
      intros k. cbn [map cell_text].
      replace (Z.to_nat (e + 1)) with (Z.to_nat e + 1)%nat by lia.
      rewrite repeat_app, <- app_assoc. reflexivity.
Qed.

(** python-chess's FEN, rank by rank. *)

Lemma board_fen_rank (pieces : Z -> option Z) (sqs : list Z) (last : Z) :
  forall (b : str) (e : Z),
    0 <= e ->
    Forall (fun sq => (sq mod 8 =? 7) = false) sqs ->
    (last mod 8 =? 7) = true ->
    fold_left (board_fen_step pieces) (sqs ++ [last]) (b, e)
    = (b ++ encode_cells (map pieces (sqs ++ [last])) e
         ++ (if last =? 7 then [] else lit "/"), 0).
Proof.
  induction sqs as [|sq sqs IH]; intros b e He F L.
  - cbn [app fold_left map encode_cells board_fen_step]. rewrite L.
    destruct (pieces last) as [ch|].
    + cbn [Z.eqb]. destruct (e =? 0), (last =? 7);
        rewrite <- ?app_assoc; cbn [app]; rewrite ?app_nil_r; reflexivity.
    + replace (e + 1 =? 0) with false by (symmetry; apply Z.eqb_neq; lia).
      destruct (last =? 7); rewrite <- ?app_assoc, ?app_nil_r; reflexivity.
  - inversion F as [|? ? Hsq F']; subst.
    cbn [app fold_left map]. unfold board_fen_step at 2. rewrite Hsq.
    destruct (pieces sq) as [ch|]; cbn [encode_cells].
    + rewrite IH by (assumption || lia).
      destruct (e =? 0); rewrite <- ?app_assoc; reflexivity.
    + rewrite IH by (assumption || lia). reflexivity.
Qed.

Lemma rank_squares_split (k : Z) :
  rank_squares k = map (fun f => 8 * k + f) [0; 1; 2; 3; 4; 5; 6] ++ [8 * k + 7].
Proof. reflexivity. Qed.

Lemma file_of_square (k f : Z) : 0 <= f < 8 -> (8 * k + f) mod 8 = f.
Proof.
  intros Hf. rewrite Z.add_comm, Z.mul_comm, Z_mod_plus_full.
  now apply Z.mod_small.
Qed.

Lemma board_fen_one_rank (pieces : Z -> option Z) (k : Z) (b : str) :
  fold_left (board_fen_step pieces) (rank_squares k) (b, 0)
  = (b ++ encode_cells (map pieces (rank_squares k)) 0
       ++ (if 8 * k + 7 =? 7 then [] else lit "/"), 0).
Proof.
  rewrite rank_squares_split. apply board_fen_rank; [lia| |].
  - repeat constructor; rewrite file_of_square by lia; reflexivity.
  - rewrite file_of_square by lia. reflexivity.
Qed.

Lemma board_fen_ranks (pieces : Z -> option Z) :
  board_fen pieces
  = join (lit "/")
      (map (fun k => encode_cells (map pieces (rank_squares k)) 0)
         [7; 6; 5; 4; 3; 2; 1; 0]).
Proof.
  unfold board_fen.
  change SQUARES_180
    with (rank_squares 7 ++ rank_squares 6 ++ rank_squares 5 ++ rank_squares 4
          ++ rank_squares 3 ++ rank_squares 2 ++ rank_squares 1 ++ rank_squares 0).
  rewrite !fold_left_app, !board_fen_one_rank.
  cbn [fst map join Z.eqb Z.mul Z.add Pos.mul Pos.add Pos.succ Pos.eqb app].
  rewrite <- !app_assoc, app_nil_r. reflexivity.
Qed.

Lemma split_plain (sep : Z) (p : str) : ~ In sep p -> split sep p = [p].
Proof.
  induction p as [|ch p IH]; intros N; [reflexivity|].
  cbn [split]. replace (ch =? sep) with false
    by (symmetry; apply Z.eqb_neq; intros ->; apply N; now left).
  rewrite IH; [reflexivity|]. intros I. apply N. now right.
Qed.

Lemma split_app (sep : Z) (p t : str) :
  ~ In sep p -> split sep (p ++ sep :: t) = p :: split sep t.
Proof.
  induction p as [|ch p IH]; intros N.
  - cbn [app split]. now rewrite Z.eqb_refl.
  - cbn [app split]. replace (ch =? sep) with false
      by (symmetry; apply Z.eqb_neq; intros ->; apply N; now left).
    rewrite IH; [reflexivity|]. intros I. apply N. now right.
Qed.

Lemma split_join (sep : Z) (rows : list str) :
  rows <> [] -> Forall (fun row => ~ In sep row) rows ->
  split sep (join [sep] rows) = rows.
Proof.
  induction rows as [|p rows IH]; intros N F; [congruence|].
  inversion F as [|? ? Hp F']; subst.
  destruct rows as [|q rows].
  - cbn [join]. now apply split_plain.
  - change (join [sep] (p :: q :: rows)) with (p ++ sep :: join [sep] (q :: rows)).
    rewrite split_app by assumption. f_equal. apply IH; [discriminate | assumption].
Qed.

Lemma encode_cells_plain (cells : list (option Z)) :
  forall e,
    0 <= e -> e + Z.of_nat (List.length cells) <= 9 ->
    (forall ch, In (Some ch) cells -> In ch piece_letters) ->
    ~ In 47 (encode_cells cells e).
Proof.
  assert (Fl : forall e, 0 <= e <= 9 -> ~ In 47 (if e =? 0 then [] else str_int e)).
  { intros e He. destruct (e =? 0); [now intros []|].
    rewrite str_int_digit by lia. intros [I|[]]. lia. }
  induction cells as [|cell cells IH]; intros e He Hl Hs; cbn [encode_cells].
  - apply Fl. simpl in Hl. lia.
  - cbn [List.length] in Hl. rewrite Nat2Z.inj_succ in Hl.
    destruct cell as [ch|].
    + intros I. apply in_app_or in I. destruct I as [I|[I|I]].
      * apply (Fl e); [lia | exact I].
      * destruct (piece_letter_not_digit {| uni_isdigit := fun _ => false;
                                            uni_int := fun _ => Ok 0 |} ch) as [_ Nc];
          [apply Hs; now left | congruence].
      * revert I. apply IH; try lia. intros ch' Hc. apply Hs. now right.
    + apply IH; try lia. intros ch' Hc. apply Hs. now right.
Qed.

Lemma draw_rows_overlay (U : Unicode) (rows : list str)
      (cells_of : Z -> list (option Z)) (rs : list Z) :
  forall squares,
    (forall r, In r rs ->
               nth_error rows (Z.to_nat r) = Some (encode_cells (cells_of r) 0)
               /\ List.length (cells_of r) = 8%nat
               /\ forall ch, In (Some ch) (cells_of r) -> In ch piece_letters) ->
    (forall r c, In r rs -> 0 <= c < 8 -> get (r, c) squares <> None) ->
    exists squares',
      draw_rows U rs rows squares = (squares', Ok tt)
      /\ overlay
           (fun k => if existsb (Z.eqb (fst k)) rs
                     then row_texts (fst k) 0 (map cell_text (cells_of (fst k))) k
                     else None)
           squares squares'.
Proof.
  induction rs as [|r rs IH]; intros squares R P.
  - exists squares. split; [reflexivity | apply overlay_refl].
  - cbn [draw_rows].
    destruct (R r (or_introl eq_refl)) as (-> & L & S).
    destruct (draw_row_encoded U r (cells_of r) 0 0 squares) as (d1 & -> & O1);
      try assumption; try lia.
    { intros j Hj. apply P; [now left|]. rewrite L in Hj. simpl in Hj. lia. }
    destruct (IH d1) as (d2 & -> & O2).
    { intros r' Hr'. apply R. now right. }
    { intros r' c Hr' Hc. apply (overlay_present _ _ _ _ O1). apply P; [now right|lia]. }
    exists d2. split; [reflexivity|].
    eapply overlay_ext; [|exact (overlay_trans _ _ _ _ _ O1 O2)].
    intros k. cbn beta. cbn [existsb Z.to_nat repeat app].
    destruct (fst k =? r) eqn:E.
    + apply Z.eqb_eq in E. rewrite E. cbn [orb].
      destruct (existsb (Z.eqb r) rs); [|reflexivity].
      now destruct (row_texts r 0 (map cell_text (cells_of r)) k).
    + cbn [orb].
      assert (N : row_texts r 0 (map cell_text (cells_of r)) k = None).
      { unfold row_texts. now rewrite E. }
      rewrite N.
      now destruct (if existsb (Z.eqb (fst k)) rs then _ else None).
Qed.

Ltac grid8 x :=
  let E := fresh "E" in
  assert (E : x = 0 \/ x = 1 \/ x = 2 \/ x = 3 \/ x = 4 \/ x = 5 \/ x = 6 \/ x = 7)
    by lia;
  repeat (destruct E as [E|E]; [subst x | ]); [ .. | subst x].

Lemma get_key (k : Z * Z) (d : dict) (l : Label) :
  get k d = Some l -> In k (map fst d).
Proof.
  induction d as [|[k0 v0] d IH]; simpl; [discriminate|].
  destruct (key_eqb k k0) eqn:E; intros G.
  - left. symmetry. now apply key_eqb_eq.
  - right. now apply IH.
Qed.

Lemma create_widgets_get (r c : Z) :
  get (r, c) create_widgets
  = if (0 <=? r) && (r <=? 7) && (0 <=? c) && (c <=? 7)
    then Some {| text := lit " ";
                 bg := if Z.even ((7 - r) + c) then lit "#b58863" else lit "#f0d9b5";
                 grid_row := r; grid_column := c; button1 := (r, c) |}
    else None.
Proof.
  destruct ((0 <=? r) && (r <=? 7) && (0 <=? c) && (c <=? 7)) eqn:B.
  - rewrite !andb_true_iff, !Z.leb_le in B.
    assert (Hr : 0 <= r <= 7) by lia. assert (Hc : 0 <= c <= 7) by lia. clear B.
    grid8 r; grid8 c; reflexivity.
  - destruct (get (r, c) create_widgets) as [l|] eqn:G; [|reflexivity].
    apply get_key in G.
    assert (F : forallb (fun k => (0 <=? fst k) && (fst k <=? 7)
                                  && (0 <=? snd k) && (snd k <=? 7))
                  (map fst create_widgets) = true) by reflexivity.
    rewrite forallb_forall in F. apply F in G. simpl in G. congruence.
Qed.

(** X14. [create_widgets] makes exactly the 64 labels of the grid, one
    for each row and column from 0 to 7: the label of a cell is placed
    in that cell, its click calls [square_clicked] with that row and
    column, it starts blank, and it is brown exactly when the square
    the cell stands for is a dark square (rank plus file even, as for
    a1), else beige. *)
Theorem create_widgets_grid (r c : Z) :
  List.length create_widgets = 64%nat
  /\ get (r, c) create_widgets
     = if (0 <=? r) && (r <=? 7) && (0 <=? c) && (c <=? 7)
       then Some {| text := lit " ";
                    bg := if Z.even ((7 - r) + c) then lit "#b58863" else lit "#f0d9b5";
                    grid_row := r; grid_column := c; button1 := (r, c) |}
       else None.
Proof. split; [reflexivity | apply create_widgets_get]. Qed.

Lemma get_piece_symbol_cases (s : str) :
  (exists p g, s = [p] /\ In p piece_letters /\ get_piece_symbol s = [g]
               /\ 9812 <= g <= 9823 /\ (g <= 9817 <-> p < 97))
  \/ ((forall p, In p piece_letters -> s <> [p]) /\ get_piece_symbol s = lit "?").
Proof.
  assert (K : Forall (fun key => s = key \/ s <> key) (map fst symbols)).
  { apply Forall_forall. intros key _.
    destruct (list_eq_dec Z.eq_dec s key); [now left | now right]. }
  cbn [map fst symbols] in K.
  repeat match type of K with
         | Forall _ (_ :: _) =>
             let E := fresh "E" in
             let K' := fresh "K" in
             inversion K as [|? ? E K']; subst; clear K; rename K' into K;
             destruct E as [->|E];
             [left; do 2 eexists; split; [reflexivity|];
              split; [simpl; tauto|]; split; [reflexivity|]; lia|]
         end.
  right. split.
  - intros p Hp. simpl in Hp.
    repeat (destruct Hp as [<-|Hp]; [assumption|]). contradiction.
  - unfold get_piece_symbol, symbols. cbn [find fst snd]. unfold str_eqb.
    repeat match goal with
           | |- context [list_eq_dec Z.eq_dec s ?k] =>
               destruct (list_eq_dec Z.eq_dec s k); [contradiction|]
           end.
    reflexivity.
Qed.

(** X15. [get_piece_symbol] gives each of the twelve piece letters its
    own chess glyph (one character of the chess block, an outline
    king to pawn for the upper-case letters of White, a solid one for
    Black), and a question mark to every other text; it never gives
    the blank that marks an empty square. *)
Theorem get_piece_symbol_table (s : str) :
  ((exists p g, s = [p] /\ In p piece_letters /\ get_piece_symbol s = [g]
                /\ 9812 <= g <= 9823 /\ (g <= 9817 <-> p < 97))
   \/ ((forall p, In p piece_letters -> s <> [p]) /\ get_piece_symbol s = lit "?"))
  /\ get_piece_symbol s <> lit " "
  /\ forall p q, In p piece_letters -> In q piece_letters ->
                 get_piece_symbol [p] = get_piece_symbol [q] -> p = q.
Proof.
  split; [apply get_piece_symbol_cases|]. split.
  - destruct (get_piece_symbol_cases s) as [(p & g & _ & _ & -> & Hg & _)|[_ ->]];
      [|discriminate].
    intros E. change (lit " ") with [32] in E. assert (g = 32) by congruence. lia.
  - intros p q Hp Hq. simpl in Hp, Hq.
    repeat (destruct Hp as [<-|Hp]; [|]); try contradiction;
      repeat (destruct Hq as [<-|Hq]; [|]); try contradiction;
      intros E; try reflexivity; discriminate E.
Qed.

(** X16. [update_board] draws the position the right way up.  For the
    FEN python-chess writes for any placement of pieces, and labels
    for every cell of the grid, it completes, and the label of row [r]
    and column [c] then shows the glyph of the piece on the square
    numbered [(7 - r) * 8 + c] (the square [square_to_uci r c] names),
    or a blank when that square is empty; the other attributes of
    the labels are as they were. *)
Theorem update_board_draws (U : Unicode) (pieces : Z -> option Z) (squares : dict) :
  (forall sq ch, pieces sq = Some ch -> In ch piece_letters) ->
  (forall r c, 0 <= r <= 7 -> 0 <= c <= 7 -> get (r, c) squares <> None) ->
  exists squares',
    update_board_squares U (board_fen pieces) squares = (squares', Ok tt)
    /\ forall r c,
         get (r, c) squares'
         = if (0 <=? r) && (r <=? 7) && (0 <=? c) && (c <=? 7)
           then option_map (with_text (cell_text (pieces ((7 - r) * 8 + c))))
                  (get (r, c) squares)
           else get (r, c) squares.
Proof.
  intros Hs P. unfold update_board_squares.
  set (cells_of := fun r => map pieces (rank_squares (7 - r))).
  assert (Rows : split 47 (board_fen pieces) = map (fun r => encode_cells (cells_of r) 0) range8).
  { rewrite board_fen_ranks. change (lit "/") with [47].
    rewrite split_join; [reflexivity | discriminate |].
    repeat constructor; apply encode_cells_plain; try (simpl; lia);
      intros ch Hc; apply in_map_iff in Hc; destruct Hc as (sq & Hc & _);
      now apply (Hs sq). }
  rewrite Rows.
  destruct (draw_rows_overlay U (map (fun r => encode_cells (cells_of r) 0) range8)
              cells_of range8 squares) as (d & -> & O).
  { intros r Hr. simpl in Hr.
    repeat (destruct Hr as [<-|Hr];
            [split; [reflexivity|]; split; [reflexivity|];
             intros ch Hc; apply in_map_iff in Hc; destruct Hc as (sq & Hc & _);
             now apply (Hs sq)|]).
    contradiction. }
  { intros r c Hr Hc. apply P; [|lia]. simpl in Hr.
    repeat (destruct Hr as [<-|Hr]; [lia|]). contradiction. }
  exists d. split; [reflexivity|]. intros r c. rewrite (O (r, c)). cbn [fst snd].
  destruct ((0 <=? r) && (r <=? 7)) eqn:Br.
  - rewrite andb_true_iff, !Z.leb_le in Br.
    replace (existsb (Z.eqb r) range8) with true
      by (assert (Hr : 0 <= r <= 7) by lia; grid8 r; reflexivity).
    unfold row_texts. cbn [fst snd]. rewrite Z.eqb_refl.
    assert (L : List.length (cells_of r) = 8%nat) by reflexivity.
    rewrite length_map, L. change (Z.of_nat 8) with 8.
    cbn [andb]. destruct (0 <=? c) eqn:B0; cbn [andb]; [|reflexivity].
    replace (c <=? 7) with (c <? 0 + 8)
      by (destruct (c <? 0 + 8) eqn:X; [apply Z.ltb_lt in X; symmetry; apply Z.leb_le; lia
                                       | apply Z.ltb_ge in X; symmetry; apply Z.leb_gt; lia]).
    destruct (c <? 0 + 8) eqn:B1; [|reflexivity].
    apply Z.leb_le in B0. apply Z.ltb_lt in B1.
    assert (N : nth_error (map cell_text (cells_of r)) (Z.to_nat (c - 0))
                = Some (cell_text (pieces ((7 - r) * 8 + c)))).
    { unfold cells_of. assert (Hc : 0 <= c <= 7) by lia.
      replace ((7 - r) * 8 + c) with (8 * (7 - r) + c) by lia.
      grid8 c; reflexivity. }
    now rewrite N.
  - cbn [andb].
    replace (existsb (Z.eqb r) range8) with false; [reflexivity|].
    symmetry. apply not_true_is_false. intros X. apply existsb_exists in X.
    destruct X as (x & Hx & E). apply Z.eqb_eq in E. subst x. simpl in Hx.
    repeat (destruct Hx as [<-|Hx]; [discriminate Br|]). contradiction.
Qed.

Lemma same_but_text_refl (d : dict) : same_but_text d d.
Proof. intros k. destruct (get k d) as [[]|]; reflexivity. Qed.

Lemma same_but_text_trans (a b c : dict) :
  same_but_text a b -> same_but_text b c -> same_but_text a c.
Proof.
  intros A B k. specialize (A k). specialize (B k).
  destruct (get k a) as [la|], (get k b) as [lb|], (get k c) as [lc|];
    try contradiction; try exact I.
  rewrite B, A. reflexivity.
Qed.

Lemma same_but_text_present (a b : dict) (k : Z * Z) :
  same_but_text a b -> get k b <> None -> get k a <> None.
Proof.
  intros A P. specialize (A k).
  destruct (get k a), (get k b); try contradiction; congruence.
Qed.

Lemma config_text_same (k : Z * Z) (t : str) (d d' : dict) :
  config_text k t d = Ok d' -> same_but_text d d' /\ get k d <> None.
Proof.
  unfold config_text. destruct (get k d) as [l|] eqn:G; [|discriminate].
  intros E. injection E as <-. split; [|discriminate].
  intros k'. rewrite get_set_item by congruence.
  destruct (key_eqb k' k) eqn:E.
  - apply key_eqb_eq in E. subst k'. rewrite G. reflexivity.
  - destruct (get k' d) as [[]|]; reflexivity.
Qed.

Lemma draw_blanks_same (n : nat) (r : Z) :
  forall c squares,
    same_but_text squares (fst (draw_blanks n r c squares))
    /\ forall c', snd (draw_blanks n r c squares) = Ok c' ->
                  c' = c + Z.of_nat n
                  /\ forall j, 0 <= j < Z.of_nat n -> get (r, c + j) squares <> None.
Proof.
  induction n as [|n IH]; intros c squares; cbn [draw_blanks].
  - split; [apply same_but_text_refl|]. cbn. intros c' E. injection E as <-.
    split; [lia|]. intros j Hj. lia.
  - destruct (config_text (r, c) (lit " ") squares) as [d1|e] eqn:C.
    + destruct (config_text_same _ _ _ _ C) as [S1 P1].
      destruct (IH (c + 1) d1) as [S2 K2].
      split; [now apply (same_but_text_trans _ d1)|].
      intros c' E. destruct (K2 c' E) as [-> P2]. split; [lia|].
      intros j Hj. destruct (Z.eq_dec j 0) as [->|N].
      * now rewrite Z.add_0_r.
      * apply (same_but_text_present _ d1 _ S1).
        replace (c + j) with (c + 1 + (j - 1)) by lia. apply P2. lia.
    + split; [apply same_but_text_refl|]. cbn. discriminate.
Qed.

Lemma draw_row_same (U : Unicode) (r : Z) (row : str) :
  forall c squares,
    same_but_text squares (fst (draw_row U r row c squares))
    /\ forall c', snd (draw_row U r row c squares) = Ok c' ->
                  c' = c + row_width U row
                  /\ forall j, c <= j < c' -> get (r, j) squares <> None.
Proof.
  induction row as [|ch row IH]; intros c squares; cbn [draw_row row_width].
  - split; [apply same_but_text_refl|]. cbn. intros c' E. injection E as <-.
    split; [lia|]. intros j Hj. lia.
  - destruct (isdigit U ch).
    + destruct (int_char U ch) as [n|e].
      * destruct (draw_blanks_same (Z.to_nat n) r c squares) as [S1 K1].
        destruct (draw_blanks (Z.to_nat n) r c squares) as [d1 [c1|e]];
          cbn [fst snd] in *.
        -- destruct (K1 c1 eq_refl) as [-> P1].
           destruct (IH (c + Z.of_nat (Z.to_nat n)) d1) as [S2 K2].
           split; [now apply (same_but_text_trans _ d1)|].
           intros c' E. destruct (K2 c' E) as [-> P2]. split; [lia|].
           intros j Hj.
           destruct (Z_lt_ge_dec j (c + Z.of_nat (Z.to_nat n))) as [Lt|Ge].
           ++ replace j with (c + (j - c)) by lia. apply P1. lia.
           ++ apply (same_but_text_present _ d1 _ S1). apply P2. lia.
        -- split; [exact S1 | discriminate].
      * split; [apply same_but_text_refl | discriminate].
    + destruct (config_text (r, c) (get_piece_symbol [ch]) squares) as [d1|e] eqn:C.
      * destruct (config_text_same _ _ _ _ C) as [S1 P1].
        destruct (IH (c + 1) d1) as [S2 K2].
        split; [now apply (same_but_text_trans _ d1)|].
        intros c' E. destruct (K2 c' E) as [-> P2]. split; [lia|].
        intros j Hj. destruct (Z.eq_dec j c) as [->|N]; [exact P1|].
        apply (same_but_text_present _ d1 _ S1). apply P2. lia.
      * split; [apply same_but_text_refl | discriminate].
Qed.

Lemma draw_rows_same (U : Unicode) (rows : list str) (rs : list Z) :
  forall squares,
    same_but_text squares (fst (draw_rows U rs rows squares))
    /\ (snd (draw_rows U rs rows squares) = Ok tt ->
        forall r, In r rs ->
                  exists row,
                    nth_error rows (Z.to_nat r) = Some row
                    /\ forall j, 0 <= j < row_width U row -> get (r, j) squares <> None).
Proof.
  induction rs as [|r rs IH]; intros squares; cbn [draw_rows].
  - split; [apply same_but_text_refl|]. intros _ r [].
  - destruct (nth_error rows (Z.to_nat r)) as [row|] eqn:N.
    + destruct (draw_row_same U r row 0 squares) as [S1 K1].
      destruct (draw_row U r row 0 squares) as [d1 [c1|e]]; cbn [fst snd] in *.
      * destruct (K1 c1 eq_refl) as [-> P1].
        destruct (IH d1) as [S2 K2].
        split; [now apply (same_but_text_trans _ d1)|].
        intros E r' [<-|Hr'].
        -- exists row. split; [exact N|]. intros j Hj. apply P1. lia.
        -- destruct (K2 E r' Hr') as (row' & N' & P').
           exists row'. split; [exact N'|]. intros j Hj.
           apply (same_but_text_present _ d1 _ S1). now apply P'.
      * split; [exact S1 | discriminate].
    + split; [apply same_but_text_refl | discriminate].
Qed.

(** X17. [update_board] completes on the fresh labels only for a
    placement with at least eight rows, the first eight of which
    describe no more than eight files each: with fewer rows [rows[r]]
    raises [IndexError], and a wider row asks for a label that does
    not exist ([KeyError]). *)
Theorem update_board_bounds (U : Unicode) (board_fen : str) :
  snd (update_board_squares U board_fen create_widgets) = Ok tt ->
  (8 <= List.length (split 47 board_fen))%nat
  /\ forall r, 0 <= r <= 7 ->
                exists row,
                  nth_error (split 47 board_fen) (Z.to_nat r) = Some row
                  /\ row_width U row <= 8.
Proof.
  unfold update_board_squares. intros E.
  destruct (draw_rows_same U (split 47 board_fen) range8 create_widgets) as [_ K].
  specialize (K E).
  assert (R : forall r, 0 <= r <= 7 ->
                        exists row,
                          nth_error (split 47 board_fen) (Z.to_nat r) = Some row
                          /\ row_width U row <= 8).
  { intros r Hr. destruct (K r) as (row & N & P).
    - grid8 r; simpl; tauto.
    - exists row. split; [exact N|].
      destruct (Z_le_gt_dec (row_width U row) 8) as [Le|Gt]; [exact Le|].
      exfalso. apply (P 8); [lia|].
      rewrite create_widgets_get.
      now replace ((0 <=? r) && (r <=? 7) && (0 <=? 8) && (8 <=? 7)) with false
        by (now rewrite !andb_false_r). }
  split; [|exact R].
  destruct (R 7) as (row & N & _); [lia|].
  assert (L : (Z.to_nat 7 < List.length (split 47 board_fen))%nat)
    by (apply nth_error_Some; congruence).
  change (Z.to_nat 7) with 7%nat in L. lia.
Qed.

(** X18. Whatever text it is given, and whether it completes or
    raises part of the way, [update_board] changes nothing of the
    labels but their texts: no label is added or lost, and colours,
    grid cells and click bindings stay as they were. *)
Theorem update_board_only_texts (U : Unicode) (board_fen : str) (squares : dict) :
  same_but_text squares (fst (update_board_squares U board_fen squares)).
Proof. unfold update_board_squares. apply draw_rows_same. Qed.

End WidgetProperties.

(** ** The properties on the sample worlds *)

Module Examples.
Import Sample.
#[local] Existing Instance lib.


(** The loop shows what it was given, in the order it asked: a move
    made while the thread sleeps does not stop the lines for the old
    board from being shown (tag 0, board version 0, on a board at
    version 1); the next turn replaces them with the lines of the
    second call, made for the new board. *)
Example stale_lines_then_fresh :
  let s := run world [Tick; Click 6 4; Click 4 4; Tick] started in
  version s = 1%nat
  /\ eval_tag s = Some (0%nat, 0%nat)
  /\ eval_text s
     = lit "PV1: 0.35 | e7e5 g1f3" ++ [10] ++ lit "PV2: -0.20 | " ++ [10]
       ++ lit "PV3: Mate in 3 | "
  /\ eval_tag (run world [Tick; Tick] s) = Some (1%nat, 1%nat).
Proof. repeat split; reflexivity. Qed.

(** C2 fails as stated. After e2e4 Black is to move; the engine
    scores its best line +35 centipawns for Black, and the text box
    shows -0.35, White's view, not the +0.35 of the side to move. *)
Lemma centipawns_not_side_to_move :
  let ps := {| relative := Cp 35; turn := BLACK |} in
  score (relative ps) = Some 35
  /\ score (white ps) = Some (-35)
  /\ pv_line 1 {| info_score := Some ps; info_pv := Some [e7e5; g1f3] |}
     = Ok (lit "PV1: -0.35 | e7e5 g1f3")
  /\ eval_text (run world [Click 6 4; Click 4 4; Tick; Tick] started)
     = lit "PV1: -0.35 | e7e5 g1f3" ++ [10] ++ lit "PV2: 0.20 | " ++ [10]
       ++ lit "PV3: Mate in -3 | ".
Proof. repeat split; reflexivity. Qed.

Lemma centipawns_white_pov_sample :
  score (white {| relative := Cp 35; turn := BLACK |}) = Some (- 35)
  /\ pv_line 1 {| info_score := Some {| relative := Cp 35; turn := BLACK |};
                  info_pv := Some [e7e5; g1f3] |}
     = Ok (lit "PV" ++ str_int 1 ++ lit ": " ++ format_hundredths (- 35)
           ++ lit " | " ++ join (lit " ") (map uci [e7e5; g1f3])).
Proof.
  apply (centipawns_white_pov 1
           {| info_score := Some {| relative := Cp 35; turn := BLACK |};
              info_pv := Some [e7e5; g1f3] |}
           {| relative := Cp 35; turn := BLACK |} 35); reflexivity.
Defined.

(** C3 fails as stated. With an engine that is dead, three turns of
    the loop send three calls; no dialog is shown, [running] stays set
    and the thread is at the head of the loop, ready for a fourth. *)
Lemma failure_not_surfaced :
  let s := run dead_world [Tick; Tick; Tick] (fst (init dead_world)) in
  init dead_world = (started, Ok tt)
  /\ running s = true
  /\ analysis_thread s = Some LoopHead
  /\ dialogs s = []
  /\ eval_text s = []
  /\ engine_calls s
     = [CallAnalyse new_board 12 3; CallAnalyse new_board 12 3;
        CallAnalyse new_board 12 3].
Proof. repeat split; reflexivity. Qed.

Lemma failure_swallowed_sample :
  analyze_step dead_world started
  = set_engine (Some (called {| command := exe; calls := [] |}
                        (CallAnalyse new_board 12 3))) started
  /\ running (analyze_step dead_world started) = true
  /\ analysis_thread (analyze_step dead_world started) = Some LoopHead
  /\ dialogs (analyze_step dead_world started) = dialogs started
  /\ eval_text (analyze_step dead_world started) = eval_text started
  /\ engine_calls (analyze_step dead_world (analyze_step dead_world started))
     = [] ++ [CallAnalyse new_board 12 3; CallAnalyse new_board 12 3].
Proof.
  apply (failure_swallowed dead_world started {| command := exe; calls := [] |}
           terminated); reflexivity.
Defined.

(** C4 fails as stated. After a full turn of the loop on the starting
    position the board has not changed (its version is still the one
    the call was made for), and the next turn sends a new call all the
    same. *)
Lemma request_without_change :
  let s := run world [Tick; Tick] started in
  eval_tag s = Some (0%nat, 0%nat)
  /\ version s = 0%nat
  /\ board s = new_board
  /\ engine_calls s = [CallAnalyse new_board 12 3]
  /\ engine_calls (analyze_step world s)
     = [CallAnalyse new_board 12 3; CallAnalyse new_board 12 3].
Proof. repeat split; reflexivity. Qed.

Lemma request_every_cycle_sample :
  engine_calls (analyze_step world (run world [Tick; Tick] started))
  = [CallAnalyse new_board 12 3] ++ [CallAnalyse new_board 12 3].
Proof.
  apply (request_every_cycle world (run world [Tick; Tick] started)
           {| command := exe; calls := [CallAnalyse new_board 12 3] |});
    reflexivity.
Defined.


(** No [stockfish.exe], or one that cannot be run. *)
Lemma engine_unavailable_sample :
  (exists s' title message,
      start_engine bare_world fresh = (s', Raise (SystemExit 1))
      /\ init bare_world = (s', Raise (SystemExit 1))
      /\ engine s' = None /\ analysis_thread s' = None /\ running s' = false
      /\ dialogs s' = [(title, message)]
      /\ (List.length (launches s') <= 1)%nat)
  /\ (exists s' title message,
        start_engine broken_world fresh = (s', Raise (SystemExit 1))
        /\ init broken_world = (s', Raise (SystemExit 1))
        /\ engine s' = None /\ analysis_thread s' = None /\ running s' = false
        /\ dialogs s' = [(title, message)]
        /\ (List.length (launches s') <= 1)%nat).
Proof.
  split.
  - apply (engine_unavailable bare_world). intros p Hp. discriminate Hp.
  - apply (engine_unavailable broken_world). intros p Hp.
    injection Hp as <-. eexists. split; reflexivity.
Defined.

(** C7 fails as stated. The first [quit_game] completes and keeps the
    engine; the second calls [quit] on it again and raises: [TclError]
    from the window when the engine tolerates the call, the engine's
    own error when it does not. *)
Lemma quit_game_not_idempotent :
  let s1 := fst (quit_game world started) in
  let s2 := fst (quit_game world s1) in
  let t1 := fst (quit_game strict_world started) in
  let t2 := fst (quit_game strict_world t1) in
  snd (quit_game world started) = Ok tt
  /\ engine s1 = Some {| command := exe; calls := [CallQuit] |}
  /\ snd (quit_game world s1) = Raise (Error TclError [])
  /\ engine s2 = Some {| command := exe; calls := [CallQuit; CallQuit] |}
  /\ snd (quit_game strict_world started) = Ok tt
  /\ engine t1 = Some {| command := exe; calls := [CallQuit] |}
  /\ snd (quit_game strict_world t1) = Raise terminated
  /\ engine t2 = Some {| command := exe; calls := [CallQuit; CallQuit] |}.
Proof. repeat split; reflexivity. Qed.

Lemma quit_game_twice_sample :
  let s1 := fst (quit_game world started) in
  running s1 = false /\ destroyed s1 = true
  /\ engine_calls s1 = [] ++ [CallQuit]
  /\ (engine s1 = None <-> engine started = None)
  /\ exists s2 ex,
       quit_game world s1 = (s2, Raise ex)
       /\ running s2 = false /\ destroyed s2 = true
       /\ engine_calls s2 = engine_calls s1 ++ [CallQuit]
       /\ (engine s2 = None <-> engine started = None).
Proof.
  apply (quit_game_twice world started (fst (quit_game world started))).
  reflexivity.
Defined.



(** Undo on the started program changes nothing; after e2e4 it
    empties the history. *)
Lemma undo_move_history_sample :
  undo_move started = (started, Ok tt)
  /\ move_stack (board (fst (undo_move moved))) = []
  /\ snd (undo_move moved) = Ok tt.
Proof.
  split.
  - apply (proj1 (undo_move_history started)). reflexivity.
  - destruct (proj2 (undo_move_history moved) [] e2e4)
      as [A B]; [reflexivity|].
    split; [exact A | apply B; reflexivity].
Defined.

End Examples.

(** ** Further properties on the sample worlds *)

Module MoreExamples.
Import Sample.
#[local] Existing Instance lib.

(** Row 8, column 0 would be the square a0. *)
Lemma square_to_uci_only_grid_a0 :
  (forall r' c', square_to_uci r' c' = Ok (lit "a0") -> r' = 8 /\ c' = 0)
  /\ (In (lit "a0") SQUARE_NAMES -> 0 <= 8 <= 7 /\ 0 <= 0 <= 7)
  /\ (~ (0 <= 8 <= 7 /\ 0 <= 0 <= 7) -> parse_square (lit "a0") = Raise (Error ValueError [])).
Proof. apply (square_to_uci_only_grid 8 0 (lit "a0")). reflexivity. Defined.

(** The sample program after [__init__], the thread having taken
    five of its steps (two requests sent, one answer shown). *)
Lemma init_succeeds_iff_sample :
  board (fst (fine_run world (repeat Tick 5) (started, false))) = new_board
  /\ selected_square (fst (fine_run world (repeat Tick 5) (started, false))) = None
  /\ running (fst (fine_run world (repeat Tick 5) (started, false))) = true
  /\ analysis_thread (fst (fine_run world (repeat Tick 5) (started, false))) <> None
  /\ displayed (fst (fine_run world (repeat Tick 5) (started, false))) = Some new_board
  /\ dialogs (fst (fine_run world (repeat Tick 5) (started, false))) = []
  /\ exists p,
       path_exists world p = true
       /\ option_map command (engine (fst (fine_run world (repeat Tick 5) (started, false))))
          = Some p
       /\ STOCKFISH_PATH (fst (fine_run world (repeat Tick 5) (started, false))) = Some p.
Proof. apply (proj2 (init_succeeds_iff world) started eq_refl 5%nat). Defined.

Example thread_ahead_of_init :
  engine_calls (fst (fine_run world (repeat Tick 5) (started, false)))
  = [CallAnalyse new_board 12 3; CallAnalyse new_board 12 3].
Proof. reflexivity. Qed.

(** Quit pressed after the thread has tested [running]: the call
    that was due is still made, no other follows, and three steps
    later the thread has ended. *)
Lemma loop_stops_after_quit_sample :
  analysis_thread
    (fst (fine_run world [Tick; Tick; Tick] (fst (quit_game world started), true)))
  = Some Finished
  /\ forall evs,
       eval_text (fst (fine_run world evs (fst (quit_game world started), true)))
       = eval_text started.
Proof.
  destruct (loop_stops_after_quit world started true) as (_ & T & Q).
  split; [apply (T LoopHead); reflexivity | apply Q; reflexivity].
Defined.

Example one_more_call_after_quit :
  analyse_count started = 0%nat
  /\ analyse_count
       (fst (fine_run world [Tick; QuitButton; Tick; Tick; Tick; Tick] (started, false)))
     = 1%nat
  /\ analyse_count
       (fst (fine_run world [QuitButton; Tick; Tick; Tick; Tick] (started, false)))
     = 0%nat.
Proof. repeat split; reflexivity. Qed.

Lemma pv_lines_shape_sample :
  exists lines,
    pv_lines 1 (three_lines new_board) = Ok lines
    /\ List.length lines = 3%nat
    /\ forall k line,
         nth_error lines k = Some line ->
         exists rest, line = lit "PV" ++ str_int (1 + Z.of_nat k) ++ lit ": " ++ rest.
Proof. exact (pv_lines_shape (three_lines new_board)). Defined.

(** An answer whose second entry has no score. *)
Example pv_lines_missing_score :
  pv_lines 1 [ {| info_score := Some {| relative := Cp 35; turn := WHITE |};
                  info_pv := Some [e2e4] |};
               {| info_score := None; info_pv := Some [g1f3] |} ]
  = Raise (Error KeyError []).
Proof. reflexivity. Qed.

Lemma analysis_cycle_sample :
  eval_text (analyze world 2 started)
  = join [10] [lit "PV1: 0.35 | e7e5 g1f3"; lit "PV2: -0.20 | "; lit "PV3: Mate in 3 | "]
  /\ analysis_thread (analyze world 2 started) = Some LoopHead.
Proof.
  exact (analysis_cycle world started {| command := exe; calls := [] |}
           (three_lines new_board) eq_refl eq_refl eq_refl eq_refl eq_refl).
Defined.

Lemma mate_white_pov_sample :
  exists n,
    mate (Mate 3) = Some n
    /\ pv_line 2 {| info_score := Some {| relative := Mate 3; turn := BLACK |};
                    info_pv := None |}
       = Ok (lit "PV" ++ str_int 2 ++ lit ": " ++ lit "Mate in " ++ str_int (- n)
             ++ lit " | " ++ join (lit " ") (map uci [])).
Proof.
  apply (mate_white_pov 2
           {| info_score := Some {| relative := Mate 3; turn := BLACK |};
              info_pv := None |}
           {| relative := Mate 3; turn := BLACK |}); reflexivity.
Defined.

(** The first click on e2 selects it; the first click on e4, an empty
    square, selects nothing. *)
Lemma first_click_selects_sample :
  (board (fst (square_clicked 6 4 started)) = board started
   /\ selected_square (fst (square_clicked 6 4 started)) = Some (lit "e2")
   /\ (destroyed started = false -> snd (square_clicked 6 4 started) = Ok tt))
  /\ (board (fst (square_clicked 4 4 started)) = board started
      /\ selected_square (fst (square_clicked 4 4 started)) = None
      /\ (destroyed started = false -> snd (square_clicked 4 4 started) = Ok tt)).
Proof.
  split.
  - apply (first_click_selects 6 4 started); [lia | lia | reflexivity].
  - apply (first_click_selects 4 4 started); [lia | lia | reflexivity].
Defined.

Lemma undo_restores_sample :
  board (fst (undo_move (step world started PlayButton))) = board started
  /\ board (fst (undo_move (step world (step world started (Click 6 4)) (Click 4 4))))
     = board (step world started (Click 6 4)).
Proof.
  split.
  - apply (undo_restores world started PlayButton); [now left|].
    intros E. discriminate E.
  - apply (undo_restores world (step world started (Click 6 4)) (Click 4 4)).
    + right. now exists 4, 4.
    + intros E. discriminate E.
Defined.

Lemma clicks_and_undo_legal_sample :
  legal_board
    (board (run world [Click 6 4; Click 4 4; UndoButton; Click 7 6; Click 5 5;
                       Click 1 4; Click 3 4; UndoButton; UndoButton; UndoButton]
              started)).
Proof.
  apply (clicks_and_undo_legal world); [constructor|].
  repeat constructor.
Defined.

Lemma play_move_outcomes_sample :
  engine_calls (fst (play_move world started)) = [] ++ [CallPlay new_board 15]
  /\ board (fst (play_move world started)) = push new_board e2e4
  /\ (destroyed started = false ->
      snd (play_move world started) = Ok tt
      /\ displayed (fst (play_move world started)) = Some (push new_board e2e4)
      /\ dialogs (fst (play_move world started)) = dialogs started).
Proof.
  exact (play_move_outcomes world started {| command := exe; calls := [] |} eq_refl).
Defined.

(** With a dead engine Play shows the failure and leaves the board. *)
Example play_move_dead_engine :
  board (fst (play_move dead_world started)) = new_board
  /\ snd (play_move dead_world started) = Ok tt
  /\ dialogs (fst (play_move dead_world started))
     = [(lit "Error", lit "engine process died unexpectedly")].
Proof. repeat split; reflexivity. Qed.

(** With a dead engine Quit does not close the window. *)
Lemma quit_game_window_sample :
  running (fst (quit_game dead_world started)) = false
  /\ (snd (quit_game dead_world started) = Ok tt
      <-> destroyed (fst (quit_game dead_world started)) = true)
  /\ forall ex,
       snd (quit_game dead_world started) = Raise ex ->
       exists e,
         engine started = Some e
         /\ quit dead_world (List.length (calls e)) = Raise ex
         /\ quit_game dead_world started
            = (set_engine (Some (called e CallQuit)) (set_running false started),
               Raise ex).
Proof. apply (quit_game_window dead_world started). reflexivity. Defined.

Example quit_game_dead_engine :
  snd (quit_game dead_world started) = Raise terminated
  /\ destroyed (fst (quit_game dead_world started)) = false.
Proof. split; reflexivity. Qed.

Lemma board_always_shown_sample :
  displayed (run world [Click 6 4; Tick; Click 4 4; PlayButton; UndoButton; Tick] started)
  = Some (board (run world [Click 6 4; Tick; Click 4 4; PlayButton; UndoButton; Tick]
                   started)).
Proof. apply (board_always_shown world started); reflexivity. Defined.

Lemma selection_is_a_square_sample :
  In (lit "e2") SQUARE_NAMES.
Proof.
  apply (selection_is_a_square world started [Click 9 9; Click 6 4] (lit "e2"));
    reflexivity.
Defined.

Import Widgets.

Lemma start_pieces_letters (sq ch : Z) :
  start_pieces sq = Some ch -> In ch piece_letters.
Proof.
  unfold start_pieces.
  destruct ((8 <=? sq) && (sq <? 16)); [intros E; injection E as <-; simpl; tauto|].
  destruct ((48 <=? sq) && (sq <? 56)); [intros E; injection E as <-; simpl; tauto|].
  destruct ((0 <=? sq) && (sq <? 8)).
  { intros E. apply nth_error_In in E. simpl in E. simpl. tauto. }
  destruct ((56 <=? sq) && (sq <? 64)); [|discriminate].
  intros E. apply nth_error_In in E. simpl in E. simpl. tauto.
Qed.

Lemma create_widgets_present (r c : Z) :
  0 <= r <= 7 -> 0 <= c <= 7 -> get (r, c) create_widgets <> None.
Proof.
  intros Hr Hc. rewrite WidgetProperties.create_widgets_get.
  replace ((0 <=? r) && (r <=? 7) && (0 <=? c) && (c <=? 7)) with true; [discriminate|].
  symmetry. rewrite !andb_true_iff, !Z.leb_le. lia.
Qed.

(** The starting position on the fresh labels. *)
Lemma update_board_draws_sample :
  exists squares',
    update_board_squares ascii_only (board_fen start_pieces) create_widgets
    = (squares', Ok tt)
    /\ forall r c,
         get (r, c) squares'
         = if (0 <=? r) && (r <=? 7) && (0 <=? c) && (c <=? 7)
           then option_map (with_text (cell_text (start_pieces ((7 - r) * 8 + c))))
                  (get (r, c) create_widgets)
           else get (r, c) create_widgets.
Proof.
  apply (WidgetProperties.update_board_draws ascii_only start_pieces create_widgets).
  - exact start_pieces_letters.
  - exact create_widgets_present.
Defined.

Lemma update_board_bounds_sample :
  (8 <= List.length (split 47 (board_fen start_pieces)))%nat
  /\ forall r, 0 <= r <= 7 ->
                exists row,
                  nth_error (split 47 (board_fen start_pieces)) (Z.to_nat r) = Some row
                  /\ row_width ascii_only row <= 8.
Proof.
  apply (WidgetProperties.update_board_bounds ascii_only (board_fen start_pieces)).
  reflexivity.
Defined.

(** A placement of seven rows, and one with a row of nine files. *)
Example update_board_short_and_wide :
  snd (update_board_squares ascii_only (lit "8/8/8/8/8/8/8") create_widgets)
  = Raise (Error IndexError [])
  /\ snd (update_board_squares ascii_only (lit "8/8/8/8/8/8/8/PPPPPPPPP") create_widgets)
     = Raise (Error KeyError []).
Proof. split; reflexivity. Qed.

Lemma get_piece_symbol_table_sample :
  get_piece_symbol (lit "K") <> lit " "
  /\ (get_piece_symbol (lit "K") = get_piece_symbol (lit "k") -> 75 = 107).
Proof.
  destruct (WidgetProperties.get_piece_symbol_table (lit "K")) as (_ & B & I).
  split; [exact B|]. apply (I 75 107); simpl; tauto.
Defined.

End MoreExamples.

